(** * kube_inventory: the collection orchestrator of kube_state.go

    A shallow embedding of [plugins/inputs/kube_inventory/kube_state.go]:
    the process-wide collector registry [availableCollectors], the lazily
    built client handle of a [KubernetesInventory] value, [initClient] and
    [Gather].

    Conventions of the embedding.
    - The Go map [availableCollectors] is a [gmap string Collector]; a lookup
      of a missing key gives Go's zero value, the nil func, here [None].
    - [Gather] and [initClient] have a pointer receiver and touch a package
      level variable, so both take the registry and the receiver and give
      back the updated ones.
    - A Go result pair (pointer to client, error) is a pair of options:
      either half may be nil.
    - What the file imports and does not define (ioutil.ReadFile,
      strings.TrimSpace, newClient of client.go, the bodies of the seven
      collectors) is a parameter of the development.
    - The goroutines of one poll are recorded as the list of units the loop
      launches; calling a nil func value is a run-time panic in Go, which no
      caller of a goroutine can recover.  A poll with such a unit is given
      the outcome [Panic]; what its other units get done before the
      process dies is not modelled.  *)

From Stdlib Require Import ZArith.
From stdpp Require Import base strings list gmap fin_maps.

Open Scope Z_scope.
Open Scope string_scope.
Open Scope list_scope.

(** ** The collector routines

    The values of the registry are the seven routines of the package; their
    bodies live in other files, so a routine is represented by its
    identity. *)
Inductive Collector : Set :=
| collectDaemonSets
| collectDeployments
| collectNodes
| collectPersistentVolumes
| collectPersistentVolumeClaims
| collectPods
| collectStatefulSets.

#[global] Instance Collector_eq_dec : EqDecision Collector.
Proof. solve_decision. Defined.

(** [var availableCollectors = map[string]func(...){ ... }] as it is when
    the process starts. *)
Definition availableCollectors : gmap string Collector :=
  list_to_map
    [ ("daemonsets", collectDaemonSets);
      ("deployments", collectDeployments);
      ("nodes", collectNodes);
      ("persistentvolumes", collectPersistentVolumes);
      ("persistentvolumeclaims", collectPersistentVolumeClaims);
      ("pods", collectPods);
      ("statefulsets", collectStatefulSets) ].

(** [time.Duration] is an int64 count of nanoseconds. *)
Definition time_Duration : Type := Z.
Definition time_Second : time_Duration := 1000000000.

(** [internal.Duration] wraps a [time.Duration]. *)
Record internal_Duration : Type := { Duration : time_Duration }.

Section kube_state.

(** [Client] is the struct [client] of client.go, [error] Go's error
    values and [tls_ClientConfig] the struct [tls.ClientConfig]. *)
Context {Client error tls_ClientConfig : Type}.

(** [strings.TrimSpace]. *)
Variable TrimSpace : string → string.

(** ** The config object *)
Record KubernetesInventory : Type := {
  URL : string;
  BearerToken : string;
  BearerTokenString : string;
  Namespace : string;
  ResponseTimeout : internal_Duration;
  ResourceExclude : list string;
  ResourceInclude : list string;
  MaxConfigMapAge : internal_Duration;
  ClientConfig : tls_ClientConfig;
  client : option Client
}.

(** [ki.BearerTokenString = s] *)
Definition set_BearerTokenString (s : string) (ki : KubernetesInventory) :
    KubernetesInventory :=
  {| URL := URL ki; BearerToken := BearerToken ki; BearerTokenString := s;
     Namespace := Namespace ki; ResponseTimeout := ResponseTimeout ki;
     ResourceExclude := ResourceExclude ki;
     ResourceInclude := ResourceInclude ki;
     MaxConfigMapAge := MaxConfigMapAge ki; ClientConfig := ClientConfig ki;
     client := client ki |}.

(** [ki.client = c] *)
Definition set_client (c : option Client) (ki : KubernetesInventory) :
    KubernetesInventory :=
  {| URL := URL ki; BearerToken := BearerToken ki;
     BearerTokenString := BearerTokenString ki;
     Namespace := Namespace ki; ResponseTimeout := ResponseTimeout ki;
     ResourceExclude := ResourceExclude ki;
     ResourceInclude := ResourceInclude ki;
     MaxConfigMapAge := MaxConfigMapAge ki; ClientConfig := ClientConfig ki;
     client := c |}.

(** The same receiver with another exclude list (a configuration change,
    used to compare polls; the code never assigns the field). *)
Definition with_ResourceExclude (ex : list string) (ki : KubernetesInventory) :
    KubernetesInventory :=
  {| URL := URL ki; BearerToken := BearerToken ki;
     BearerTokenString := BearerTokenString ki;
     Namespace := Namespace ki; ResponseTimeout := ResponseTimeout ki;
     ResourceExclude := ex;
     ResourceInclude := ResourceInclude ki;
     MaxConfigMapAge := MaxConfigMapAge ki; ClientConfig := ClientConfig ki;
     client := client ki |}.

(** The value the factory registered by [init] returns. *)
Definition init (tls0 : tls_ClientConfig) : KubernetesInventory :=
  {| URL := ""; BearerToken := ""; BearerTokenString := "";
     Namespace := "default";
     ResponseTimeout := {| Duration := time_Second * 5 |};
     ResourceExclude := []; ResourceInclude := [];
     MaxConfigMapAge := {| Duration := 0 |}; ClientConfig := tls0;
     client := None |}.

(** ** What a poll finds outside the file

    - [ReadFile]: ioutil.ReadFile, the content or the error;
    - [newClient]: newClient of client.go, returned unexamined by
      [initClient];
    - [collector_fails]: whether the body of a routine meets a failure
      it reports to the accumulator (routines return nothing). *)
Record Env : Type := {
  ReadFile : string → string + error;
  newClient : string → string → string → time_Duration → tls_ClientConfig →
              option Client * option error;
  collector_fails : Collector → bool
}.

(** The convention of a Go constructor that [newClient] is taken to
    follow: with an error comes no client. *)
Definition newClient_conventional (env : Env) : Prop :=
  ∀ url ns tok d tls c e,
    newClient env url ns tok d tls = (c, Some e) → c = None.

(** ** Observations of one poll *)

(** What [initClient] does, in order. *)
Inductive SetupEvent : Type :=
| EvDelete (name : string)
| EvReadFile (path : string)
| EvNewClient (url ns token : string) (timeout : time_Duration)
    (tls : tls_ClientConfig).

(** How the goroutine of one unit ends: the routine ran clean, the routine
    ran and reported a failure of its own, or the func value was nil. *)
Inductive UnitResult : Set := Finished | FailedInternally | NilCall.

(** One [go func(f ...){ defer wg.Done(); f(ctx, acc, ki) }(f)].  The key
    under which [f] was found is kept to tell units apart. *)
Record Unit : Set := {
  unit_name : string;
  unit_f : option Collector;
  unit_result : UnitResult
}.

#[global] Instance UnitResult_eq_dec : EqDecision UnitResult.
Proof. solve_decision. Defined.

#[global] Instance Unit_eq_dec : EqDecision Unit.
Proof. solve_decision. Defined.

(** What becomes of a poll.  [Return err]: [Gather] returns [err] and no
    unit of the poll calls nil.  [Panic]: a unit of the poll calls the nil
    func and the run-time kills the process; as [wg.Done] is deferred in
    the unit, [Gather] may have returned nil just before the process
    dies, so [Panic] says that the process dies of the poll, not that
    [Gather] did not return. *)
Inductive Outcome : Type :=
| Return (err : option error)
| Panic.

Record PollResult : Type := {
  outcome : Outcome;
  (** the pair [initClient] returned, when it was called *)
  constructed : option (option Client * option error);
  setup : list SetupEvent;
  units : list Unit
}.

(** ** initClient *)

(** [for i := range names { delete(availableCollectors, names[i]) }] *)
Definition delete_all (names : list string) (reg : gmap string Collector) :
    gmap string Collector :=
  foldl (λ m n, delete n m) reg names.

(** The names the guard [if len(ki.ResourceInclude) == 0] hands to the
    deleting loop. *)
Definition excluded_by (ki : KubernetesInventory) : list string :=
  if (length (ResourceInclude ki) =? 0)%nat then ResourceExclude ki else [].

Definition initClient (env : Env) (reg : gmap string Collector)
    (ki : KubernetesInventory) :
    gmap string Collector * KubernetesInventory *
    (option Client * option error) * list SetupEvent :=
  let reg := delete_all (excluded_by ki) reg in
  let ev : list SetupEvent := EvDelete <$> excluded_by ki in
  if bool_decide (BearerToken ki ≠ "") then
    match ReadFile env (BearerToken ki) with
    | inr err =>
        (reg, ki, (None, Some err), ev ++ [EvReadFile (BearerToken ki)])
    | inl token =>
        let ki := set_BearerTokenString (TrimSpace token) ki in
        (reg, ki,
         newClient env (URL ki) (Namespace ki) (BearerTokenString ki)
           (Duration (ResponseTimeout ki)) (ClientConfig ki),
         ev ++ [EvReadFile (BearerToken ki);
                EvNewClient (URL ki) (Namespace ki) (BearerTokenString ki)
                  (Duration (ResponseTimeout ki)) (ClientConfig ki)])
    end
  else
    (reg, ki,
     newClient env (URL ki) (Namespace ki) (BearerTokenString ki)
       (Duration (ResponseTimeout ki)) (ClientConfig ki),
     ev ++ [EvNewClient (URL ki) (Namespace ki) (BearerTokenString ki)
              (Duration (ResponseTimeout ki)) (ClientConfig ki)]).

(** ** Gather *)

(** The goroutine body: [f(ctx, acc, ki)] with [f] possibly nil. *)
Definition go (env : Env) (n : string) (f : option Collector) : Unit :=
  {| unit_name := n; unit_f := f;
     unit_result :=
       match f with
       | None => NilCall
       | Some c => if collector_fails env c then FailedInternally else Finished
       end |}.

(** The two launching loops of [Gather]. *)
Definition launch (env : Env) (reg : gmap string Collector)
    (ki : KubernetesInventory) : list Unit :=
  if (length (ResourceInclude ki) =? 0)%nat then
    (λ nf : string * Collector, go env nf.1 (Some nf.2)) <$> map_to_list reg
  else
    (λ n, go env n (reg !! n)) <$> ResourceInclude ki.

Definition is_nil_call (u : Unit) : bool :=
  match unit_result u with NilCall => true | _ => false end.

(** [wg.Wait(); return nil] when every unit is a routine; a unit that
    calls nil brings the process down. *)
Definition join (us : list Unit) : Outcome :=
  if existsb is_nil_call us then Panic else Return None.

Definition Gather (env : Env) (reg : gmap string Collector)
    (ki : KubernetesInventory) :
    gmap string Collector * KubernetesInventory * PollResult :=
  match client ki with
  | None =>
      let '(reg, ki, (c, err), ev) := initClient env reg ki in
      let ki := set_client c ki in
      match err with
      | Some e =>
          (reg, ki,
           {| outcome := Return (Some e); constructed := Some (c, err);
              setup := ev; units := [] |})
      | None =>
          let us := launch env reg ki in
          (reg, ki,
           {| outcome := join us; constructed := Some (c, err);
              setup := ev; units := us |})
      end
  | Some _ =>
      let us := launch env reg ki in
      (reg, ki,
       {| outcome := join us; constructed := None; setup := []; units := us |})
  end.

(** Repeated polls of one receiver against the registry; a panic ends the
    process. *)
Fixpoint polls (envs : list Env) (reg : gmap string Collector)
    (ki : KubernetesInventory) :
    gmap string Collector * KubernetesInventory * list PollResult :=
  match envs with
  | [] => (reg, ki, [])
  | env :: envs' =>
      let '(reg1, ki1, r) := Gather env reg ki in
      match outcome r with
      | Panic => (reg1, ki1, [r])
      | Return _ =>
          let '(reg2, ki2, rs) := polls envs' reg1 ki1 in
          (reg2, ki2, r :: rs)
      end
  end.

(** The names of the routines a poll ran: those of the launched units
    whose func was not nil.  In a poll whose outcome is [Panic] these
    units are in flight when the process dies, so there the list only
    bounds what ran. *)
Definition collectors_run (r : PollResult) : list string :=
  unit_name <$> filter (λ u, is_Some (unit_f u)) (units r).

(** A poll called [initClient]. *)
Definition attempted (r : PollResult) : Prop := is_Some (constructed r).

#[global] Instance attempted_dec r : Decision (attempted r).
Proof. unfold attempted. apply _. Defined.

(** The number of polls of a run that called [initClient]. *)
Definition attempts (rs : list PollResult) : nat :=
  length (filter attempted rs).

(** A set-up event is a call of [newClient]. *)
Definition is_EvNewClient (ev : SetupEvent) : Prop :=
  match ev with EvNewClient _ _ _ _ _ => True | _ => False end.

(** The handle is there, or [initClient] gives no error. *)
Definition client_ready (env : Env) (reg : gmap string Collector)
    (ki : KubernetesInventory) : Prop :=
  is_Some (client ki) ∨ (initClient env reg ki).1.2.2 = None.

End kube_state.

(** ** atoi

    [atoi] calls [strconv.ParseInt(s, 10, 64)] of Go's standard library
    and gives 0 when it reports an error.  [ParseInt] and the [ParseUint]
    it calls are written out for an explicit base (2 to 36, so with no
    prefix and no underscore) and a bit size from 1 to 64; a Go string is
    its bytes, a uint64 is a [Z] reduced modulo 2^64 and an int64 a [Z]
    folded into the signed range. *)

(** The two causes of a [*strconv.NumError]. *)
Inductive NumError : Set := ErrSyntax | ErrRange.

Definition maxUint64 : Z := 2 ^ 64 - 1.

(** [int64(u)] for a uint64 [u], and the wrap-around of int64 results. *)
Definition to_int64 (z : Z) : Z := (z + 2 ^ 63) mod 2 ^ 64 - 2 ^ 63.

Definition byte_of (c : Ascii.ascii) : Z := Z.of_nat (Ascii.nat_of_ascii c).

(** The value a byte stands for as a digit: 0-9, a-z, A-Z. *)
Definition digit_value (c : Z) : option Z :=
  if ((48 <=? c) && (c <=? 57))%Z then Some (c - 48)
  else if ((97 <=? c) && (c <=? 122))%Z then Some (c - 97 + 10)
  else if ((65 <=? c) && (c <=? 90))%Z then Some (c - 65 + 10)
  else None.

(** The loop of [ParseUint] over the bytes of [s], from the value [n]. *)
Fixpoint ParseUint_loop (base cutoff maxVal : Z) (s : string) (n : Z) :
    Z * option NumError :=
  match s with
  | EmptyString => (n, None)
  | String c s' =>
      match digit_value (byte_of c) with
      | None => (0, Some ErrSyntax)
      | Some d =>
          if (d >=? base)%Z then (0, Some ErrSyntax)
          else if (n >=? cutoff)%Z then (maxVal, Some ErrRange)
          else
            let n0 := (n * base) mod 2 ^ 64 in
            let n1 := (n0 + d) mod 2 ^ 64 in
            if ((n1 <? n0) || (n1 >? maxVal))%Z then (maxVal, Some ErrRange)
            else ParseUint_loop base cutoff maxVal s' n1
      end
  end.

Definition ParseUint (s : string) (base bitSize : Z) : Z * option NumError :=
  match s with
  | EmptyString => (0, Some ErrSyntax)
  | _ =>
      let cutoff := maxUint64 / base + 1 in
      let maxVal := 2 ^ bitSize - 1 in
      ParseUint_loop base cutoff maxVal s 0
  end.

Definition ParseInt (s : string) (base bitSize : Z) : Z * option NumError :=
  match s with
  | EmptyString => (0, Some ErrSyntax)
  | String c s' =>
      let neg := (byte_of c =? 45)%Z in
      let s1 :=
        if ((byte_of c =? 43) || (byte_of c =? 45))%Z then s' else s in
      let '(un, err) := ParseUint s1 base bitSize in
      match err with
      | Some ErrSyntax => (0, err)
      | _ =>
          let cutoff := 2 ^ (bitSize - 1) in
          if negb neg && (un >=? cutoff)%Z then (cutoff - 1, Some ErrRange)
          else if neg && (un >? cutoff)%Z then (- cutoff, Some ErrRange)
          else
            let n := to_int64 un in
            (if neg then to_int64 (- n) else n, None)
      end
  end.

Definition atoi (s : string) : Z :=
  let '(i, err) := ParseInt s 10 64 in
  match err with
  | Some _ => 0
  | None => i
  end.

(** *** Decimal numerals, to state what [atoi] computes *)

Definition is_digit (c : Ascii.ascii) : bool :=
  ((48 <=? byte_of c) && (byte_of c <=? 57))%Z.

Fixpoint all_digits (s : string) : bool :=
  match s with
  | EmptyString => true
  | String c s' => is_digit c && all_digits s'
  end.

(** The number a string of decimal digits denotes, continuing from [n]. *)
Fixpoint decimal_from (s : string) (n : Z) : Z :=
  match s with
  | EmptyString => n
  | String c s' => decimal_from s' (n * 10 + (byte_of c - 48))
  end.

Definition decimal_value (s : string) : Z := decimal_from s 0.

(** A string without its leading sign, if it has one. *)
Definition unsigned_part (s : string) : string :=
  match s with
  | String c s' =>
      if ((byte_of c =? 43) || (byte_of c =? 45))%Z then s' else s
  | EmptyString => EmptyString
  end.

Definition is_negative (s : string) : bool :=
  match s with
  | String c _ => (byte_of c =? 45)%Z
  | EmptyString => false
  end.

(** A byte occurs in a string. *)
Fixpoint occurs (c : Ascii.ascii) (s : string) : Prop :=
  match s with
  | EmptyString => False
  | String c' s' => c = c' ∨ occurs c s'
  end.

(** The direct reading of a decimal numeral: an optional sign, then one or
    more digits, denoting an int64; anything else reads as 0. *)
Definition read_decimal (s : string) : Z :=
  let b := unsigned_part s in
  let v := decimal_value b in
  if negb (bool_decide (b = "")) && all_digits b &&
     (if is_negative s then (v <=? 2 ^ 63)%Z else (v <? 2 ^ 63)%Z)
  then if is_negative s then - v else v
  else 0.

(** ** A concrete environment

    Used to run the definitions: a client is the triple it was built from,
    an error is its message, there is no TLS option, one token file exists,
    [newClient] refuses an empty URL and the pods routine reports a
    failure. *)

(** White space of the ASCII range, as [strings.TrimSpace] treats it. *)
Definition ascii_space (a : Ascii.ascii) : bool :=
  let n := Ascii.nat_of_ascii a in
  ((n =? 32) || ((9 <=? n) && (n <=? 13)))%nat.

Fixpoint trim_left (s : string) : string :=
  match s with
  | String a s' => if ascii_space a then trim_left s' else s
  | EmptyString => EmptyString
  end.

(** An instance of [strings.TrimSpace] for ASCII contents. *)
Definition trim_ascii (s : string) : string :=
  String.rev (trim_left (String.rev (trim_left s))).

Definition token_path : string := "/run/secrets/token".

Definition token_file_content : string :=
  "  abc_123 " +:+ String (Ascii.ascii_of_nat 10) "".

Definition demo_env : @Env (string * string * string) string unit :=
  {| ReadFile p :=
       if bool_decide (p = token_path) then inl token_file_content
       else inr ("open " +:+ p +:+ ": no such file or directory");
     newClient url ns tok _ _ :=
       if bool_decide (url = "") then (None, Some "no url to connect to")
       else (Some (url, ns, tok), None);
     collector_fails c := bool_decide (c = collectPods) |}.

(** A receiver as the factory makes it, with a URL, an include list, an
    exclude list, a token path and a literal token. *)
Definition demo_ki (include exclude : list string) (path literal : string) :
    @KubernetesInventory (string * string * string) unit :=
  {| URL := "https://127.0.0.1"; BearerToken := path;
     BearerTokenString := literal; Namespace := "default";
     ResponseTimeout := {| Duration := time_Second * 5 |};
     ResourceExclude := exclude; ResourceInclude := include;
     MaxConfigMapAge := {| Duration := 0 |}; ClientConfig := tt;
     client := None |}.

(** The same environment with the API server out of reach. *)
Definition demo_env_down : @Env (string * string * string) string unit :=
  {| ReadFile := ReadFile demo_env;
     newClient _ _ _ _ _ := (None, Some "connection refused");
     collector_fails := collector_fails demo_env |}.

(** A registry of three routines. *)
Definition small_registry : gmap string Collector :=
  list_to_map
    [ ("nodes", collectNodes); ("pods", collectPods);
      ("deployments", collectDeployments) ].

(** One poll in the concrete environment. *)
Definition demo_poll (reg : gmap string Collector)
    (ki : @KubernetesInventory (string * string * string) unit) :=
  Gather trim_ascii demo_env reg ki.

(** Three polls of one receiver: the server is out of reach at the first
    and back for the next two. *)
Definition demo_run :=
  polls trim_ascii [demo_env_down; demo_env; demo_env] availableCollectors
    (demo_ki [] [] "" "").

(** An environment whose [newClient] breaks the constructor convention:
    it gives a client together with an error. *)
Definition demo_env_both : @Env (string * string * string) string unit :=
  {| ReadFile := ReadFile demo_env;
     newClient url ns tok _ _ := (Some (url, ns, tok), Some "partial set-up");
     collector_fails := collector_fails demo_env |}.

(** * Properties *)

Section kube_state_facts.

Context {Client error tls_ClientConfig : Type}.
Variable TrimSpace : string → string.

Local Abbreviation KI := (@KubernetesInventory Client tls_ClientConfig).
Local Abbreviation ENV := (@Env Client error tls_ClientConfig).
Local Abbreviation initClient := (initClient TrimSpace).
Local Abbreviation Gather := (Gather TrimSpace).
Local Abbreviation polls := (polls TrimSpace).
Local Abbreviation client_ready := (client_ready TrimSpace).
Local Abbreviation join := (@join error).
Local Abbreviation RES := (@PollResult Client error tls_ClientConfig).

Implicit Types (env : ENV) (ki : KI) (reg : gmap string Collector) (r : RES).
Implicit Types (o : @Outcome error) (res : option Client * option error).

(** *** The deleting loop *)

Lemma lookup_delete_all names reg n :
  delete_all names reg !! n = if decide (n ∈ names) then None else reg !! n.
Proof.
  revert reg. induction names as [|a names IH]; intros reg.
  - destruct (decide (n ∈ [])) as [H|_]; [by apply elem_of_nil in H | done].
  - change (delete_all (a :: names) reg) with (delete_all names (delete a reg)).
    rewrite IH. destruct (decide (n = a)) as [->|Hne].
    + rewrite lookup_delete_eq, (decide_True (P := a ∈ a :: names))
        by apply list_elem_of_here.
      by case_decide.
    + rewrite lookup_delete_ne by done.
      destruct (decide (n ∈ names)) as [Hin|Hin].
      * by rewrite decide_True by (by apply list_elem_of_further).
      * rewrite decide_False; [done |].
        intros [?|?]%elem_of_cons; done.
Qed.

Lemma delete_all_nil reg : delete_all [] reg = reg.
Proof. reflexivity. Qed.

(** *** initClient, field by field *)

Lemma initClient_registry env reg ki :
  (initClient env reg ki).1.1.1 = delete_all (excluded_by ki) reg.
Proof.
  unfold initClient, excluded_by.
  destruct (bool_decide _); [destruct (ReadFile _ _) |]; reflexivity.
Qed.

Lemma initClient_receiver env reg ki :
  let ki1 := (initClient env reg ki).1.1.2 in
  ResourceInclude ki1 = ResourceInclude ki ∧
  ResourceExclude ki1 = ResourceExclude ki ∧
  client ki1 = client ki.
Proof.
  unfold initClient.
  destruct (bool_decide _); [destruct (ReadFile _ _) |]; simpl; auto.
Qed.

Lemma initClient_events env reg ki :
  ∃ rest, (initClient env reg ki).2 = (EvDelete <$> excluded_by ki) ++ rest ∧
          rest ≠ [] ∧ Forall (λ ev, ∀ n, ev ≠ EvDelete n) rest.
Proof.
  unfold initClient, excluded_by.
  destruct (bool_decide _); [destruct (ReadFile _ _) |]; simpl;
    eexists; (split; [reflexivity |]); (split; [discriminate |]);
    repeat constructor; discriminate.
Qed.

(** *** Gather, case by case *)

Lemma launch_ext env reg ki ki' :
  ResourceInclude ki = ResourceInclude ki' →
  launch env reg ki = launch env reg ki'.
Proof. unfold launch. by intros ->. Qed.

Lemma Gather_cached env reg ki c :
  client ki = Some c →
  Gather env reg ki =
    (reg, ki, {| outcome := join (launch env reg ki); constructed := None;
                 setup := []; units := launch env reg ki |}).
Proof. unfold Gather. by intros ->. Qed.

Lemma Gather_init_err env reg ki reg1 ki1 c e ev :
  client ki = None →
  initClient env reg ki = (reg1, ki1, (c, Some e), ev) →
  Gather env reg ki =
    (reg1, set_client c ki1,
     {| outcome := Return (Some e); constructed := Some (c, Some e);
        setup := ev; units := [] |}).
Proof. unfold Gather. by intros -> ->. Qed.

Lemma Gather_init_ok env reg ki reg1 ki1 c ev :
  client ki = None →
  initClient env reg ki = (reg1, ki1, (c, None), ev) →
  Gather env reg ki =
    (reg1, set_client c ki1,
     {| outcome := join (launch env reg1 ki);
        constructed := Some (c, None);
        setup := ev; units := launch env reg1 ki |}).
Proof.
  unfold Gather. intros -> Hi. rewrite Hi.
  pose proof (initClient_receiver env reg ki) as (Hinc & _). rewrite Hi in Hinc.
  simpl in Hinc.
  by rewrite (launch_ext env reg1 (set_client c ki1) ki) by done.
Qed.

(** *** The launching loops *)

Lemma launch_all env reg ki :
  ResourceInclude ki = [] →
  launch env reg ki =
    (λ nf : string * Collector, go env nf.1 (Some nf.2)) <$> map_to_list reg.
Proof. unfold launch. by intros ->. Qed.

Lemma launch_include env reg ki :
  ResourceInclude ki ≠ [] →
  launch env reg ki = (λ n, go env n (reg !! n)) <$> ResourceInclude ki.
Proof. unfold launch. by destruct (ResourceInclude ki). Qed.

Lemma launch_names_all env reg ki :
  ResourceInclude ki = [] →
  unit_name <$> launch env reg ki = (map_to_list reg).*1.
Proof.
  intros Hinc. rewrite launch_all by done.
  induction (map_to_list reg) as [|[n f] l IH]; simpl; [done | by f_equal].
Qed.

Lemma launch_unit_all env reg ki u :
  ResourceInclude ki = [] →
  u ∈ launch env reg ki ↔
  ∃ n f, reg !! n = Some f ∧ u = go env n (Some f).
Proof.
  intros Hinc. rewrite launch_all by done. rewrite list_elem_of_fmap. split.
  - intros ([n f] & -> & Hin). apply elem_of_map_to_list in Hin. eauto.
  - intros (n & f & Hl & ->). exists (n, f). split; [done |].
    by apply elem_of_map_to_list.
Qed.

Lemma launch_unit_include env reg ki u :
  ResourceInclude ki ≠ [] →
  u ∈ launch env reg ki ↔
  ∃ n, n ∈ ResourceInclude ki ∧ u = go env n (reg !! n).
Proof.
  intros Hinc. rewrite launch_include by done. rewrite list_elem_of_fmap.
  split; intros (n & H1 & H2); exists n; by split.
Qed.

Lemma is_nil_call_go env n f : is_nil_call (go env n f) = true ↔ f = None.
Proof.
  destruct f as [c|]; simpl; [| done].
  unfold is_nil_call. simpl. by destruct (collector_fails env c).
Qed.

Lemma join_Panic us :
  join us = Panic ↔ ∃ u, u ∈ us ∧ is_nil_call u = true.
Proof.
  unfold join. destruct (existsb is_nil_call us) eqn:E.
  - apply existsb_exists in E as (u & Hin & Hu). split; [| done].
    intros _. exists u. by rewrite list_elem_of_In.
  - split; [done |]. intros (u & Hin & Hu). exfalso.
    assert (existsb is_nil_call us = true) as E'; [| congruence].
    apply existsb_exists. exists u. by rewrite <- list_elem_of_In.
Qed.

Lemma join_Return us :
  (∀ u, u ∈ us → is_nil_call u = false) → join us = Return None.
Proof.
  intros Hall. unfold join. destruct (existsb is_nil_call us) eqn:E; [| done].
  apply existsb_exists in E as (u & Hin & Hu).
  apply list_elem_of_In, Hall in Hin. congruence.
Qed.

(** A poll whose units are all registered routines returns nil. *)
Lemma join_launch_Return env reg ki :
  Forall (λ n, is_Some (reg !! n)) (ResourceInclude ki) →
  join (launch env reg ki) = Return None.
Proof.
  intros Hall. apply join_Return. intros u Hu.
  destruct (decide (ResourceInclude ki = [])) as [Hinc|Hinc].
  - apply launch_unit_all in Hu as (n & f & _ & ->); [| done].
    destruct (is_nil_call _) eqn:E; [| done]. by apply is_nil_call_go in E.
  - apply launch_unit_include in Hu as (n & Hn & ->); [| done].
    rewrite Forall_forall in Hall. destruct (Hall n Hn) as [f Hf].
    destruct (is_nil_call _) eqn:E; [| done].
    apply is_nil_call_go in E. congruence.
Qed.

(** A poll that looks up a name the registry lacks panics. *)
Lemma join_launch_Panic env reg ki n :
  n ∈ ResourceInclude ki → reg !! n = None →
  join (launch env reg ki) = Panic.
Proof.
  intros Hn Hmiss. apply join_Panic. exists (go env n None). split.
  - apply launch_unit_include; [by intros E; rewrite E in Hn; apply elem_of_nil in Hn |].
    exists n. by rewrite Hmiss.
  - by apply is_nil_call_go.
Qed.

Lemma collectors_run_all env reg ki r :
  ResourceInclude ki = [] → units r = launch env reg ki →
  collectors_run r = (map_to_list reg).*1.
Proof.
  intros Hinc Hu. unfold collectors_run. rewrite Hu, launch_all by done.
  induction (map_to_list reg) as [|[n f] l IH]; [done |].
  rewrite fmap_cons, filter_cons_True by (simpl; eauto).
  rewrite !fmap_cons. simpl. by rewrite IH.
Qed.

Lemma run_names_include env reg (l : list string) :
  unit_name <$>
    filter (λ u, is_Some (unit_f u)) ((λ n, go env n (reg !! n)) <$> l) =
  filter (λ n, is_Some (reg !! n)) l.
Proof.
  induction l as [|n l IH]; [done |].
  rewrite fmap_cons. destruct (reg !! n) as [f|] eqn:E.
  - rewrite (filter_cons_True _ (go env n (Some f))) by (simpl; eauto).
    rewrite (filter_cons_True _ n) by (simpl; rewrite E; eauto).
    rewrite fmap_cons. simpl. by rewrite IH.
  - rewrite (filter_cons_False _ (go env n None))
      by (simpl; intros [? ?]; done).
    rewrite (filter_cons_False _ n)
      by (simpl; rewrite E; intros [? ?]; done).
    done.
Qed.

Lemma collectors_run_include env reg ki r :
  ResourceInclude ki ≠ [] → units r = launch env reg ki →
  collectors_run r = filter (λ n, is_Some (reg !! n)) (ResourceInclude ki).
Proof.
  intros Hinc Hu. unfold collectors_run. rewrite Hu, launch_include by done.
  apply run_names_include.
Qed.

(** What a poll with a usable handle does: the registry it launches from,
    its units and how it ends. *)
Lemma Gather_ready env reg ki reg' ki' r :
  client_ready env reg ki →
  Gather env reg ki = (reg', ki', r) →
  reg' = match client ki with
         | Some _ => reg
         | None => delete_all (excluded_by ki) reg
         end ∧
  units r = launch env reg' ki ∧
  outcome r = join (units r).
Proof.
  intros Hready HG. destruct (client ki) as [c|] eqn:Hc.
  - rewrite (Gather_cached env reg ki c Hc) in HG. by simplify_eq.
  - destruct Hready as [[? ?]|Herr]; [congruence |].
    pose proof (initClient_registry env reg ki) as Hreg.
    destruct (initClient env reg ki) as [[[reg1 ki1] [c err]] ev] eqn:Hi.
    simpl in Herr, Hreg. subst err reg1.
    rewrite (Gather_init_ok env reg ki _ ki1 c ev Hc Hi) in HG.
    by simplify_eq.
Qed.

Lemma excluded_by_include ki : ResourceInclude ki ≠ [] → excluded_by ki = [].
Proof. unfold excluded_by. by destruct (ResourceInclude ki). Qed.

Lemma excluded_by_no_include ki :
  ResourceInclude ki = [] → excluded_by ki = ResourceExclude ki.
Proof. unfold excluded_by. by intros ->. Qed.

(** With an include list the exclude list is never read. *)
Lemma Gather_exclude_irrelevant env reg ki (ex : list string) :
  ResourceInclude ki ≠ [] →
  Gather env reg (with_ResourceExclude ex ki) =
    ((Gather env reg ki).1.1,
     with_ResourceExclude ex (Gather env reg ki).1.2,
     (Gather env reg ki).2).
Proof.
  destruct ki as [url bt bts ns rt exc inc age tls cl]. simpl.
  intros Hinc. destruct inc as [|i inc]; [done |].
  unfold Gather, initClient. simpl.
  destruct cl as [c|]; [done |]. simpl.
  destruct (bool_decide (bt ≠ "")); [destruct (ReadFile env bt) |]; simpl;
    try done;
    match goal with
    | |- context [newClient ?e ?a ?b ?c ?d ?f] =>
        destruct (newClient e a b c d f) as [c0 [e0|]]
    end; done.
Qed.

(** A poll that includes a name the registry lacks ends in a panic. *)
Lemma Gather_unknown_include_panics env reg ki reg' ki' r n :
  client_ready env reg ki →
  n ∈ ResourceInclude ki → reg !! n = None →
  Gather env reg ki = (reg', ki', r) →
  outcome r = Panic.
Proof.
  intros Hready Hn Hmiss HG.
  assert (ResourceInclude ki ≠ []) as Hinc
    by (intros E; rewrite E in Hn; by apply elem_of_nil in Hn).
  destruct (Gather_ready _ _ _ _ _ _ Hready HG) as (Hreg & Hu & Ho).
  rewrite excluded_by_include, delete_all_nil in Hreg by done.
  assert (reg' = reg) as -> by (by destruct (client ki)).
  rewrite Ho, Hu. by apply (join_launch_Panic env reg ki n).
Qed.

(** *** Selection and dispatch *)

(** C4, with the proviso that the poll has or builds its client: with an
    empty include list and an empty exclude list, such a poll launches one
    unit per entry of the registry:
    there are as many units as entries, no name is launched twice, routine
    [f] runs under name [n] exactly when the registry maps [n] to [f],
    every unit is such a routine, the registry is left as it was and the
    poll returns nil. *)
Theorem C4_empty_lists_run_every_collector_once env reg ki reg' ki' r :
  ResourceInclude ki = [] → ResourceExclude ki = [] →
  client_ready env reg ki →
  Gather env reg ki = (reg', ki', r) →
  reg' = reg ∧
  length (units r) = size reg ∧
  NoDup (unit_name <$> units r) ∧
  (∀ n f, reg !! n = Some f ↔ go env n (Some f) ∈ units r) ∧
  (∀ u, u ∈ units r → ∃ n f, reg !! n = Some f ∧ u = go env n (Some f)) ∧
  collectors_run r = (map_to_list reg).*1 ∧
  outcome r = Return None.
Proof.
  intros Hinc Hexc Hready HG.
  destruct (Gather_ready _ _ _ _ _ _ Hready HG) as (Hreg & Hu & Ho).
  rewrite excluded_by_no_include, Hexc, delete_all_nil in Hreg by done.
  assert (reg' = reg) as -> by (by destruct (client ki)). clear Hreg.
  split; [done |]. split.
  { rewrite Hu, launch_all, length_fmap by done. apply length_map_to_list. }
  split.
  { rewrite Hu, launch_names_all by done. apply NoDup_fst_map_to_list. }
  split.
  { intros n f. rewrite Hu, launch_unit_all by done. split.
    - eauto.
    - intros (n' & f' & Hl & Heq).
      apply (f_equal unit_name) in Heq as Hn.
      apply (f_equal unit_f) in Heq as Hf. simpl in Hn, Hf. by simplify_eq. }
  split.
  { intros u. rewrite Hu. by apply launch_unit_all. }
  split.
  { by apply (collectors_run_all env reg ki r). }
  rewrite Ho, Hu. apply join_launch_Return. rewrite Hinc. constructor.
Qed.

Lemma filter_registered (reg : gmap string Collector) (l : list string) :
  Forall (λ n, is_Some (reg !! n)) l →
  filter (λ n, is_Some (reg !! n)) l = l.
Proof.
  induction 1 as [|n l Hn _ IH]; [done |].
  rewrite filter_cons_True by done. by rewrite IH.
Qed.

(** C2, with the provisos that the poll has or builds its client and that
    every included name is registered (what a poll does with a name the
    registry lacks is left out here): with a non-empty include list, such
    a poll returns nil having run the routines of exactly the included
    names, as a set the include list intersected with the registry's
    names; it leaves the registry as it was, and does the same whatever
    the exclude list is. *)
Theorem C2_include_list_alone_selects env reg ki reg' ki' r :
  ResourceInclude ki ≠ [] →
  Forall (λ n, is_Some (reg !! n)) (ResourceInclude ki) →
  client_ready env reg ki →
  Gather env reg ki = (reg', ki', r) →
  reg' = reg ∧
  outcome r = Return None ∧
  Forall (λ u, unit_result u ≠ NilCall) (units r) ∧
  collectors_run r = ResourceInclude ki ∧
  (list_to_set (collectors_run r) : gset string) =
    list_to_set (ResourceInclude ki) ∩ dom reg ∧
  ∀ ex : list string,
    Gather env reg (with_ResourceExclude ex ki) =
      (reg, with_ResourceExclude ex ki', r).
Proof.
  intros Hinc Hall Hready HG.
  destruct (Gather_ready _ _ _ _ _ _ Hready HG) as (Hreg & Hu & Ho).
  rewrite excluded_by_include, delete_all_nil in Hreg by done.
  assert (reg' = reg) as -> by (by destruct (client ki)). clear Hreg.
  assert (collectors_run r = ResourceInclude ki) as Hrun.
  { rewrite (collectors_run_include env reg ki r) by done.
    by apply filter_registered. }
  split; [done |]. split.
  { rewrite Ho, Hu. by apply join_launch_Return. }
  split.
  { apply Forall_forall. intros u Hin. rewrite Hu in Hin.
    apply launch_unit_include in Hin as (n & Hn & ->); [| done].
    rewrite Forall_forall in Hall. destruct (Hall n Hn) as [f ->].
    simpl. by destruct (collector_fails env f). }
  split; [done |]. split.
  - rewrite Hrun. apply set_eq. intros n.
    rewrite elem_of_intersection, !elem_of_list_to_set, elem_of_dom.
    rewrite Forall_forall in Hall. split; [| tauto].
    intros Hn. split; [done |]. by apply Hall.
  - intros ex. rewrite Gather_exclude_irrelevant by done. by rewrite HG.
Qed.

(** A poll that has or builds its client and whose included names are all
    registered launches no nil unit. *)
Lemma Gather_registered_units_finish env reg ki reg' ki' r :
  client_ready env reg ki →
  Forall (λ n, is_Some (reg !! n)) (ResourceInclude ki) →
  Gather env reg ki = (reg', ki', r) →
  Forall (λ u, unit_result u ≠ NilCall) (units r).
Proof.
  intros Hready Hall HG.
  destruct (Gather_ready _ _ _ _ _ _ Hready HG) as (Hreg & Hu & Ho).
  apply Forall_forall. intros u Hin. rewrite Hu in Hin.
  destruct (decide (ResourceInclude ki = [])) as [Hinc|Hinc].
  - apply launch_unit_all in Hin as (n & f & _ & ->); [| done].
    simpl. by destruct (collector_fails env f).
  - rewrite excluded_by_include, delete_all_nil in Hreg by done.
    assert (reg' = reg) as -> by (by destruct (client ki)).
    apply launch_unit_include in Hin as (n & Hn & ->); [| done].
    rewrite Forall_forall in Hall. destruct (Hall n Hn) as [f ->].
    simpl. by destruct (collector_fails env f).
Qed.

(** C6: a poll that has or builds its client returns nil once all the
    units it launched have finished, that is when none of them ended in a
    nil call; the units that finished may each have run clean or reported a
    failure of their own, in any number. *)
Theorem C6_poll_returns_nil_whatever_units_report env reg ki reg' ki' r :
  client_ready env reg ki →
  Gather env reg ki = (reg', ki', r) →
  Forall (λ u, unit_result u ≠ NilCall) (units r) →
  outcome r = Return None.
Proof.
  intros Hready HG Hall.
  destruct (Gather_ready _ _ _ _ _ _ Hready HG) as (_ & _ & ->).
  apply join_Return. intros u Hin. rewrite Forall_forall in Hall.
  specialize (Hall u Hin). unfold is_nil_call. by destruct (unit_result u).
Qed.

(** *** Construction and its failure *)

Lemma Gather_constructs env reg ki :
  client ki = None →
  constructed (Gather env reg ki).2 = Some (initClient env reg ki).1.2.
Proof.
  intros Hc. unfold Gather. rewrite Hc.
  by destruct (initClient env reg ki) as [[[reg1 ki1] [c [e|]]] ev].
Qed.

Lemma Gather_reuses env reg ki c reg' ki' r :
  client ki = Some c →
  Gather env reg ki = (reg', ki', r) →
  reg' = reg ∧ ki' = ki ∧ constructed r = None ∧ setup r = [].
Proof.
  intros Hc HG. rewrite (Gather_cached env reg ki c Hc) in HG.
  by simplify_eq.
Qed.

(** What [initClient] returns: the error of [ReadFile], or what
    [newClient] returns. *)
Lemma initClient_result env reg ki :
  (∃ e, ReadFile env (BearerToken ki) = inr e ∧
        (initClient env reg ki).1.2 = (None, Some e)) ∨
  (∃ tok, (initClient env reg ki).1.2 =
            newClient env (URL ki) (Namespace ki) tok
              (Duration (ResponseTimeout ki)) (ClientConfig ki)).
Proof.
  unfold initClient.
  destruct (bool_decide _); [destruct (ReadFile _ _) as [tok|e] eqn:E |];
    simpl; eauto.
Qed.

Lemma initClient_error_no_client env reg ki c e :
  newClient_conventional env →
  (initClient env reg ki).1.2 = (c, Some e) → c = None.
Proof.
  intros Hconv Hres.
  destruct (initClient_result env reg ki) as [(e' & _ & H)|(tok & H)];
    rewrite H in Hres.
  - by simplify_eq.
  - by apply (Hconv (URL ki) (Namespace ki) tok
                (Duration (ResponseTimeout ki)) (ClientConfig ki) c e).
Qed.

Lemma client_set_client (c : option Client) ki : client (set_client c ki) = c.
Proof. reflexivity. Qed.

(** C5: when the handle is nil and [initClient] gives an error (with
    [newClient] following the constructor convention), the poll returns
    that error, launches no unit and so runs no routine, leaves the handle
    nil, and the next poll, in whatever environment and registry, calls
    [initClient] again. *)
Theorem C5_construction_failure_returned_and_retried
    env reg ki reg0 ki0 c e ev reg' ki' r :
  newClient_conventional env →
  client ki = None →
  initClient env reg ki = (reg0, ki0, (c, Some e), ev) →
  Gather env reg ki = (reg', ki', r) →
  outcome r = Return (Some e) ∧
  units r = [] ∧
  collectors_run r = [] ∧
  client ki' = None ∧
  ∀ env2 reg2,
    attempted (Gather env2 reg2 ki').2 ∧
    constructed (Gather env2 reg2 ki').2 = Some (initClient env2 reg2 ki').1.2.
Proof.
  intros Hconv Hc Hi HG.
  rewrite (Gather_init_err env reg ki reg0 ki0 c e ev Hc Hi) in HG.
  assert (c = None) as ->.
  { apply (initClient_error_no_client env reg ki c e Hconv). by rewrite Hi. }
  simplify_eq. simpl. repeat (split; [done |]).
  intros env2 reg2. unfold attempted.
  rewrite Gather_constructs by done. eauto.
Qed.

(** C10: with an empty include list and a nil handle, when [initClient]
    gives an error (with [newClient] following the constructor
    convention) the poll returns that error and keeps the handle nil, yet
    the registry it leaves behind is the one with every excluded name
    deleted; the deletions come first among the set-up events, before the
    file is read or [newClient] is called. *)
Theorem C10_deletions_outlive_failed_construction
    env reg ki reg0 ki0 c e ev reg' ki' r :
  newClient_conventional env →
  ResourceInclude ki = [] →
  client ki = None →
  initClient env reg ki = (reg0, ki0, (c, Some e), ev) →
  Gather env reg ki = (reg', ki', r) →
  outcome r = Return (Some e) ∧
  client ki' = None ∧
  reg' = delete_all (ResourceExclude ki) reg ∧
  (∀ n, n ∈ ResourceExclude ki → reg' !! n = None) ∧
  (∀ n, n ∉ ResourceExclude ki → reg' !! n = reg !! n) ∧
  ∃ rest, setup r = (EvDelete <$> ResourceExclude ki) ++ rest ∧
          rest ≠ [] ∧ Forall (λ ev, ∀ n, ev ≠ EvDelete n) rest.
Proof.
  intros Hconv Hinc Hc Hi HG.
  rewrite (Gather_init_err env reg ki reg0 ki0 c e ev Hc Hi) in HG.
  assert (c = None) as ->.
  { apply (initClient_error_no_client env reg ki c e Hconv). by rewrite Hi. }
  pose proof (initClient_registry env reg ki) as Hreg.
  destruct (initClient_events env reg ki) as (rest & Hev & Hne & Hrest).
  rewrite Hi in Hreg, Hev. simpl in Hreg, Hev.
  rewrite excluded_by_no_include in Hreg, Hev by done.
  simplify_eq. simpl. split; [done |]. split; [done |]. split; [done |].
  split; [| split].
  - intros n Hn. rewrite lookup_delete_all. by rewrite decide_True.
  - intros n Hn. rewrite lookup_delete_all. by rewrite decide_False.
  - by exists rest.
Qed.

(** *** Reuse of the handle *)

Lemma Gather_success_caches env reg ki reg' ki' r c :
  Gather env reg ki = (reg', ki', r) →
  constructed r = Some (Some c, None) →
  client ki' = Some c.
Proof.
  intros HG Hcons. destruct (client ki) as [c0|] eqn:Hc.
  - destruct (Gather_reuses env reg ki c0 reg' ki' r Hc HG) as (_ & _ & H & _).
    congruence.
  - destruct (initClient env reg ki) as [[[reg1 ki1] [c1 [e|]]] ev] eqn:Hi.
    + rewrite (Gather_init_err env reg ki reg1 ki1 c1 e ev Hc Hi) in HG.
      injection HG as <- <- <-. by simpl in Hcons.
    + rewrite (Gather_init_ok env reg ki reg1 ki1 c1 ev Hc Hi) in HG.
      injection HG as <- <- <-. simpl in Hcons. by simplify_eq.
Qed.

(** Once the handle is there, no poll of the run calls [initClient]. *)
Lemma polls_reuse (envs : list ENV) reg ki c reg' ki' (rs : list RES) :
  client ki = Some c →
  polls envs reg ki = (reg', ki', rs) →
  Forall (λ r, constructed r = None ∧ setup r = []) rs ∧ client ki' = Some c.
Proof.
  revert reg ki reg' ki' rs.
  induction envs as [|env envs IH]; intros reg ki reg' ki' rs Hc Hp.
  - simpl in Hp. by simplify_eq.
  - simpl in Hp.
    destruct (Gather env reg ki) as [[reg1 ki1] r1] eqn:HG.
    destruct (Gather_reuses env reg ki c reg1 ki1 r1 Hc HG)
      as (-> & -> & Hcons & Hsetup).
    destruct (outcome r1).
    + destruct (polls envs reg ki) as [[reg2 ki2] rs2] eqn:Hp2.
      destruct (IH _ _ _ _ _ Hc Hp2) as [Hall Hc2].
      simplify_eq. split; [| done]. by constructor.
    + simplify_eq. split; [| done]. by repeat constructor.
Qed.

Lemma attempts_none (rs : list RES) :
  Forall (λ r, constructed r = None ∧ setup r = []) rs → attempts rs = 0%nat.
Proof.
  unfold attempts. induction 1 as [|r rs [Hr _] _ IH]; [done |].
  rewrite filter_cons_False; [done |].
  unfold attempted. rewrite Hr. by intros [? ?].
Qed.

Lemma attempts_app (rs1 rs2 : list RES) :
  attempts (rs1 ++ rs2) = (attempts rs1 + attempts rs2)%nat.
Proof. unfold attempts. by rewrite filter_app, length_app. Qed.

(** C7: in any run of polls of one receiver, a poll whose call of
    [initClient] gives a client and no error is the last one to call it:
    no later poll of the run constructs or performs any set-up step, so
    from that poll on there is exactly one attempt (the run has one more
    attempt than the polls before it, hence one in all when it is the
    first attempt), and the receiver ends the run holding that very
    client. *)
Theorem C7_handle_built_once_then_reused
    (envs : list ENV) reg ki reg' ki' (pre post : list RES) r c :
  polls envs reg ki = (reg', ki', pre ++ r :: post) →
  constructed r = Some (Some c, None) →
  Forall (λ r', constructed r' = None ∧ setup r' = []) post ∧
  attempts (r :: post) = 1%nat ∧
  attempts (pre ++ r :: post) = (attempts pre + 1)%nat ∧
  client ki' = Some c.
Proof.
  intros Hp Hcons.
  assert (Forall (λ r', constructed r' = None ∧ setup r' = []) post ∧
          client ki' = Some c) as [Hpost Hc'].
  { revert reg ki pre Hp.
    induction envs as [|env envs IH]; intros reg ki pre Hp.
    - simpl in Hp. simplify_eq. by destruct pre.
    - simpl in Hp.
      destruct (Gather env reg ki) as [[reg1 ki1] r1] eqn:HG.
      destruct (outcome r1) eqn:Ho.
      + destruct (polls envs reg1 ki1) as [[reg2 ki2] rs2] eqn:Hp2.
        destruct pre as [|p pre]; simpl in Hp; simplify_eq.
        * pose proof (Gather_success_caches _ _ _ _ _ _ _ HG Hcons) as Hc1.
          apply (polls_reuse envs reg1 ki1 c _ _ _ Hc1 Hp2).
        * by apply (IH reg1 ki1 pre).
      + destruct pre as [|p pre]; simpl in Hp; simplify_eq.
        * split; [constructor |].
          by apply (Gather_success_caches _ _ _ _ _ _ _ HG Hcons).
        * by destruct pre. }
  assert (attempts (r :: post) = 1%nat) as Hone.
  { unfold attempts. rewrite filter_cons_True
      by (unfold attempted; rewrite Hcons; eauto).
    simpl. f_equal. by apply attempts_none. }
  split; [done |]. split; [done |]. split; [| done].
  by rewrite attempts_app, Hone.
Qed.

(** *** The bearer token *)

(** C8: with a token path configured, [initClient] reads the file; if it
    reads it, the token stored in the receiver and handed to [newClient]
    (the last set-up event) is the content trimmed by [TrimSpace]; if it
    cannot, [initClient] returns no client and the very error of the read,
    never calls [newClient], and a poll that had no handle returns that
    error as a value, with no unit launched and the handle still nil. *)
Theorem C8_token_file_trimmed_or_read_error_returned
    env reg ki reg1 ki1 res ev :
  BearerToken ki ≠ "" →
  initClient env reg ki = (reg1, ki1, res, ev) →
  match ReadFile env (BearerToken ki) with
  | inl content =>
      BearerTokenString ki1 = TrimSpace content ∧
      res = newClient env (URL ki) (Namespace ki) (TrimSpace content)
              (Duration (ResponseTimeout ki)) (ClientConfig ki) ∧
      last ev = Some (EvNewClient (URL ki) (Namespace ki) (TrimSpace content)
                        (Duration (ResponseTimeout ki)) (ClientConfig ki))
  | inr e =>
      res = (None, Some e) ∧
      ki1 = ki ∧
      Forall (λ x, ¬ is_EvNewClient x) ev ∧
      (client ki = None →
       outcome (Gather env reg ki).2 = Return (Some e) ∧
       units (Gather env reg ki).2 = [] ∧
       client (Gather env reg ki).1.2 = None)
  end.
Proof.
  intros Hpath Hi.
  assert (bool_decide (BearerToken ki ≠ "") = true) as Hb
    by (by apply bool_decide_eq_true).
  destruct (ReadFile env (BearerToken ki)) as [content|e] eqn:E.
  - revert Hi. unfold initClient. rewrite Hb, E. intros Hi. simplify_eq.
    simpl. split; [done |]. split; [done |]. by rewrite last_app.
  - pose proof Hi as Hi'. revert Hi. unfold initClient. rewrite Hb, E.
    intros Hi. injection Hi as <- <- <- <-.
    split; [done |]. split; [done |]. split.
    + apply Forall_app. split.
      * apply Forall_fmap. apply Forall_forall. intros ? _. simpl. tauto.
      * repeat constructor. simpl. tauto.
    + intros Hc.
      rewrite (Gather_init_err env reg ki _ _ _ _ _ Hc Hi'). by simpl.
Qed.

(** C9: with a token path configured, the literal token plays no part in
    building the client: when the file is read the client is what
    [newClient] makes of the trimmed file content, every call of
    [newClient] among the set-up events carries the trimmed content of the
    file, and whatever literal token the configuration holds,
    [initClient] returns the same pair after the same events. *)
Theorem C9_token_file_overrides_literal env reg ki reg1 ki1 res ev :
  BearerToken ki ≠ "" →
  initClient env reg ki = (reg1, ki1, res, ev) →
  (∀ content, ReadFile env (BearerToken ki) = inl content →
     res = newClient env (URL ki) (Namespace ki) (TrimSpace content)
             (Duration (ResponseTimeout ki)) (ClientConfig ki)) ∧
  (∀ url ns tok d tls,
     EvNewClient url ns tok d tls ∈ ev →
     ∃ content, ReadFile env (BearerToken ki) = inl content ∧
                tok = TrimSpace content) ∧
  ∀ literal : string,
    (initClient env reg (set_BearerTokenString literal ki)).1.2 = res ∧
    (initClient env reg (set_BearerTokenString literal ki)).2 = ev.
Proof.
  intros Hpath Hi.
  assert (bool_decide (BearerToken ki ≠ "") = true) as Hb
    by (by apply bool_decide_eq_true).
  assert (∀ literal,
            bool_decide (BearerToken (set_BearerTokenString literal ki) ≠ "")
            = true) as Hb' by (intros; exact Hb).
  revert Hi. unfold initClient. rewrite Hb.
  destruct (ReadFile env (BearerToken ki)) as [content|e] eqn:E;
    intros Hi; injection Hi as <- <- <- <-.
  - split; [| split].
    + intros content' Hc. by simplify_eq.
    + intros url ns tok d tls Hin. exists content. split; [done |].
      apply elem_of_app in Hin as [Hin|Hin].
      * apply list_elem_of_fmap in Hin as (? & ? & _). done.
      * apply elem_of_cons in Hin as [Hin|Hin]; [done |].
        apply elem_of_cons in Hin as [Hin|Hin]; [by simplify_eq |].
        by apply elem_of_nil in Hin.
    + intros literal. rewrite Hb'. simpl. by rewrite E.
  - split; [| split].
    + intros content' Hc. done.
    + intros url ns tok d tls Hin. exfalso.
      apply elem_of_app in Hin as [Hin|Hin].
      * apply list_elem_of_fmap in Hin as (? & ? & _). done.
      * apply elem_of_cons in Hin as [Hin|Hin]; [done |].
        by apply elem_of_nil in Hin.
    + intros literal. rewrite Hb'. simpl. by rewrite E.
Qed.

(** *** What a deletion does to later polls *)

Lemma Gather_registry env reg ki :
  (Gather env reg ki).1.1 =
    match client ki with
    | Some _ => reg
    | None => delete_all (excluded_by ki) reg
    end.
Proof.
  unfold Gather. destruct (client ki) as [c|]; [done |].
  pose proof (initClient_registry env reg ki) as Hreg.
  by destruct (initClient env reg ki) as [[[reg1 ki1] [c [e|]]] ev].
Qed.

(** Every routine a poll runs is in the registry the poll leaves. *)
Lemma collectors_run_registered env reg ki reg' ki' r n :
  Gather env reg ki = (reg', ki', r) →
  n ∈ collectors_run r → is_Some (reg' !! n).
Proof.
  intros HG Hn.
  assert (units r = [] ∨ units r = launch env reg' ki) as [Hu|Hu].
  { destruct (client ki) as [c|] eqn:Hc.
    - rewrite (Gather_cached env reg ki c Hc) in HG. simplify_eq. by right.
    - destruct (initClient env reg ki) as [[[reg1 ki1] [c1 [e|]]] ev] eqn:Hi.
      + rewrite (Gather_init_err env reg ki reg1 ki1 c1 e ev Hc Hi) in HG.
        simplify_eq. by left.
      + rewrite (Gather_init_ok env reg ki reg1 ki1 c1 ev Hc Hi) in HG.
        simplify_eq. by right. }
  - unfold collectors_run in Hn. rewrite Hu in Hn. by apply elem_of_nil in Hn.
  - destruct (decide (ResourceInclude ki = [])) as [Hinc|Hinc].
    + rewrite (collectors_run_all env reg' ki r Hinc Hu) in Hn.
      apply list_elem_of_fmap in Hn as ([n' f] & -> & Hin).
      apply elem_of_map_to_list in Hin. simpl. eauto.
    + rewrite (collectors_run_include env reg' ki r Hinc Hu) in Hn.
      by apply list_elem_of_filter in Hn as [? _].
Qed.

(** A name excluded by a poll that called [initClient] with an empty
    include list is run by no later poll without an include list,
    whatever that poll's own exclude list. *)
Lemma excluded_name_gone_for_next_poll
    env1 env2 reg ki1 ki2 reg1 ki1' r1 reg2 ki2' r2 n :
  ResourceInclude ki1 = [] → client ki1 = None → n ∈ ResourceExclude ki1 →
  Gather env1 reg ki1 = (reg1, ki1', r1) →
  ResourceInclude ki2 = [] →
  Gather env2 reg1 ki2 = (reg2, ki2', r2) →
  n ∉ collectors_run r2.
Proof.
  intros Hinc1 Hc1 Hn HG1 Hinc2 HG2 Hrun.
  pose proof (Gather_registry env1 reg ki1) as Hreg1.
  rewrite HG1, Hc1, excluded_by_no_include in Hreg1 by done. simpl in Hreg1.
  assert (reg1 !! n = None) as Hgone.
  { rewrite Hreg1, lookup_delete_all. by rewrite decide_True. }
  pose proof (Gather_registry env2 reg1 ki2) as Hreg2.
  rewrite HG2 in Hreg2. simpl in Hreg2.
  assert (reg2 !! n = None) as Hgone2.
  { rewrite Hreg2. destruct (client ki2); [done |].
    rewrite lookup_delete_all. by case_decide. }
  destruct (collectors_run_registered _ _ _ _ _ _ _ HG2 Hrun) as [f Hf].
  congruence.
Qed.

End kube_state_facts.

(** * The definitions at work *)

(** C1, as the code runs it: a first poll with no include list and
    "nodes" excluded deletes "nodes" from the registry; a second poll of
    another receiver, with no include and no exclude list, against the
    registry the first one left, returns nil without running "nodes",
    although the same poll against the initial registry runs it. *)
Theorem C1_exclusion_outlives_its_poll :
  let reg1 := (demo_poll availableCollectors (demo_ki [] ["nodes"] "" "")).1.1 in
  let second := (demo_poll reg1 (demo_ki [] [] "" "")).2 in
  let alone := (demo_poll availableCollectors (demo_ki [] [] "" "")).2 in
  availableCollectors !! "nodes" = Some collectNodes ∧
  reg1 !! "nodes" = None ∧
  outcome second = Return None ∧
  ("nodes" ∉ collectors_run second) ∧
  ("nodes" ∈ collectors_run alone).
Proof.
  cbv zeta.
  split; [vm_compute; reflexivity |].
  split; [vm_compute; reflexivity |].
  split; [vm_compute; reflexivity |].
  split; apply (bool_decide_unpack _); vm_compute; exact I.
Qed.

(** C3, as the code runs it: "configmaps" is not in the registry; a poll
    that includes it gets the nil func from the lookup, launches a unit
    that calls it, and ends in a panic. *)
Theorem C3_unknown_include_name_panics :
  let r := (demo_poll availableCollectors
              (demo_ki ["pods"; "configmaps"] [] "" "")).2 in
  availableCollectors !! "configmaps" = None ∧
  (go demo_env "configmaps" None ∈ units r) ∧
  unit_result (go demo_env "configmaps" None) = NilCall ∧
  outcome r = Panic.
Proof.
  cbv zeta.
  split; [vm_compute; reflexivity |].
  split; [apply (bool_decide_unpack _); vm_compute; exact I |].
  split; vm_compute; reflexivity.
Qed.

(** ** The theorems at concrete inputs *)

Local Ltac run := vm_compute; reflexivity.

Lemma demo_env_conventional : newClient_conventional demo_env.
Proof.
  intros url ns tok d tls c e. simpl.
  destruct (bool_decide (url = "")); intros H; by inversion H.
Defined.

Lemma demo_env_down_conventional : newClient_conventional demo_env_down.
Proof. intros url ns tok d tls c e. simpl. intros H. by inversion H. Defined.

(** Without the proviso on the client, C2 fails: pods is included and
    registered, but the token file cannot be read, so the poll returns the
    error of the read and runs nothing. *)
Lemma C2_counterexample_unreadable_token_file :
  let ki := demo_ki ["pods"] ["nodes"] "/missing" "" in
  let r := (demo_poll small_registry ki).2 in
  ResourceInclude ki ≠ [] ∧
  outcome r = Return (Some "open /missing: no such file or directory") ∧
  collectors_run r = [] ∧
  ¬ ((list_to_set (collectors_run r) : gset string) =
       list_to_set (ResourceInclude ki) ∩ dom small_registry).
Proof.
  cbv zeta.
  split; [discriminate |].
  split; [run |].
  split; [run |].
  apply (bool_decide_unpack _). vm_compute. exact I.
Qed.

(** Without the proviso on the client, C4 fails: both lists are empty,
    the registry holds seven routines, but the token file cannot be read,
    so the poll returns the error of the read and launches no unit. *)
Lemma C4_counterexample_unreadable_token_file :
  let ki := demo_ki [] [] "/missing" "" in
  let r := (demo_poll availableCollectors ki).2 in
  ResourceInclude ki = [] ∧ ResourceExclude ki = [] ∧
  outcome r = Return (Some "open /missing: no such file or directory") ∧
  units r = [] ∧
  ¬ (∀ n f, availableCollectors !! n = Some f →
            go demo_env n (Some f) ∈ units r).
Proof.
  cbv zeta.
  split; [reflexivity |]. split; [reflexivity |].
  split; [run |]. split; [run |].
  intros H.
  assert (availableCollectors !! "nodes" = Some collectNodes) as Hn by run.
  apply H in Hn. vm_compute in Hn. by apply elem_of_nil in Hn.
Qed.

(** The example of the specification: registry nodes, pods, deployments;
    include pods, exclude nodes; only pods runs, as without the exclude
    list. *)
Lemma C2_witness_include_pods_exclude_nodes :
  let G := demo_poll small_registry (demo_ki ["pods"] ["nodes"] "" "") in
  G.1.1 = small_registry ∧
  collectors_run G.2 = ["pods"] ∧
  demo_poll small_registry (demo_ki ["pods"] [] "" "") =
    (small_registry, with_ResourceExclude [] G.1.2, G.2).
Proof.
  cbv zeta.
  destruct (C2_include_list_alone_selects trim_ascii demo_env small_registry
              (demo_ki ["pods"] ["nodes"] "" "")
              (demo_poll small_registry (demo_ki ["pods"] ["nodes"] "" "")).1.1
              (demo_poll small_registry (demo_ki ["pods"] ["nodes"] "" "")).1.2
              (demo_poll small_registry (demo_ki ["pods"] ["nodes"] "" "")).2)
    as (H1 & _ & _ & H2 & _ & H4).
  - discriminate.
  - apply (bool_decide_unpack _). vm_compute. exact I.
  - right. run.
  - run.
  - split; [exact H1 |]. split; [rewrite H2; run |]. exact (H4 []).
Defined.

(** The receiver of the factory with a URL: the seven routines run, each
    once. *)
Lemma C4_witness_default_config :
  let G := demo_poll availableCollectors (demo_ki [] [] "" "") in
  G.1.1 = availableCollectors ∧
  length (units G.2) = 7%nat ∧
  NoDup (unit_name <$> units G.2) ∧
  outcome G.2 = Return None.
Proof.
  cbv zeta.
  destruct (C4_empty_lists_run_every_collector_once trim_ascii demo_env
              availableCollectors (demo_ki [] [] "" "")
              (demo_poll availableCollectors (demo_ki [] [] "" "")).1.1
              (demo_poll availableCollectors (demo_ki [] [] "" "")).1.2
              (demo_poll availableCollectors (demo_ki [] [] "" "")).2)
    as (H1 & H2 & H3 & _ & _ & _ & H7).
  - reflexivity.
  - reflexivity.
  - right. run.
  - run.
  - split; [exact H1 |]. split; [rewrite H2; run |]. split; [exact H3 |].
    exact H7.
Defined.

(** A token path that does not exist: the poll returns the error of the
    read, launches nothing, keeps no handle, and the next poll tries
    again. *)
Lemma C5_witness_missing_token_file :
  let G := demo_poll availableCollectors (demo_ki [] [] "/missing" "") in
  outcome G.2 = Return (Some "open /missing: no such file or directory") ∧
  units G.2 = [] ∧
  client G.1.2 = None ∧
  attempted (demo_poll availableCollectors G.1.2).2.
Proof.
  cbv zeta.
  destruct (C5_construction_failure_returned_and_retried trim_ascii demo_env
              availableCollectors (demo_ki [] [] "/missing" "")
              availableCollectors (demo_ki [] [] "/missing" "") None
              "open /missing: no such file or directory"
              [EvReadFile "/missing"]
              (demo_poll availableCollectors (demo_ki [] [] "/missing" "")).1.1
              (demo_poll availableCollectors (demo_ki [] [] "/missing" "")).1.2
              (demo_poll availableCollectors (demo_ki [] [] "/missing" "")).2)
    as (H1 & H2 & _ & H4 & H5).
  - exact demo_env_conventional.
  - reflexivity.
  - run.
  - run.
  - split; [exact H1 |]. split; [exact H2 |]. split; [exact H4 |].
    exact (proj1 (H5 demo_env availableCollectors)).
Defined.

(** The pods routine reports a failure of its own; the poll still
    returns nil. *)
Lemma C6_witness_pods_fails :
  let G := demo_poll availableCollectors (demo_ki [] [] "" "") in
  unit_result (go demo_env "pods" (Some collectPods)) = FailedInternally ∧
  (go demo_env "pods" (Some collectPods) ∈ units G.2) ∧
  outcome G.2 = Return None.
Proof.
  cbv zeta.
  split; [run |].
  split; [apply (bool_decide_unpack _); vm_compute; exact I |].
  apply (C6_poll_returns_nil_whatever_units_report trim_ascii demo_env
           availableCollectors (demo_ki [] [] "" "")
           (demo_poll availableCollectors (demo_ki [] [] "" "")).1.1
           (demo_poll availableCollectors (demo_ki [] [] "" "")).1.2).
  - right. run.
  - run.
  - apply (bool_decide_unpack _). vm_compute. exact I.
Defined.

(** Three polls, the server out of reach at the first: the second builds
    the client, the third neither builds nor sets anything up, and the
    receiver ends with the client of the second. *)
Lemma C7_witness_three_polls :
  let c := ("https://127.0.0.1", "default", "") in
  length demo_run.2 = 3%nat ∧
  (constructed <$> demo_run.2) =
    [Some (None, Some "connection refused"); Some (Some c, None); None] ∧
  attempts (drop 1 demo_run.2) = 1%nat ∧
  client demo_run.1.2 = Some c.
Proof.
  cbv zeta.
  split; [run |]. split; [run |].
  destruct (C7_handle_built_once_then_reused trim_ascii
              [demo_env_down; demo_env; demo_env] availableCollectors
              (demo_ki [] [] "" "") demo_run.1.1 demo_run.1.2
              (take 1 demo_run.2)
              (drop 2 demo_run.2)
              (demo_poll availableCollectors (demo_ki [] [] "" "")).2
              ("https://127.0.0.1", "default", ""))
    as (_ & H2 & _ & H3).
  - run.
  - run.
  - split; [| exact H3].
    replace (drop 1 demo_run.2)
      with ((demo_poll availableCollectors (demo_ki [] [] "" "")).2
            :: drop 2 demo_run.2) by run.
    exact H2.
Defined.

(** A token file with blanks around the token, then a path that does not
    exist. *)
Lemma C8_witness_token_file :
  BearerTokenString
    (initClient trim_ascii demo_env availableCollectors
       (demo_ki [] [] token_path "")).1.1.2 = "abc_123" ∧
  outcome (demo_poll availableCollectors (demo_ki [] [] "/missing" "")).2 =
    Return (Some "open /missing: no such file or directory").
Proof.
  split.
  - destruct (C8_token_file_trimmed_or_read_error_returned trim_ascii demo_env
                availableCollectors (demo_ki [] [] token_path "")
                (initClient trim_ascii demo_env availableCollectors
                   (demo_ki [] [] token_path "")).1.1.1
                (initClient trim_ascii demo_env availableCollectors
                   (demo_ki [] [] token_path "")).1.1.2
                (initClient trim_ascii demo_env availableCollectors
                   (demo_ki [] [] token_path "")).1.2
                (initClient trim_ascii demo_env availableCollectors
                   (demo_ki [] [] token_path "")).2)
      as (H1 & _ & _).
    + discriminate.
    + run.
    + rewrite H1. run.
  - destruct (C8_token_file_trimmed_or_read_error_returned trim_ascii demo_env
                availableCollectors (demo_ki [] [] "/missing" "")
                availableCollectors (demo_ki [] [] "/missing" "")
                (None, Some "open /missing: no such file or directory")
                [EvReadFile "/missing"])
      as (_ & _ & _ & H4).
    + discriminate.
    + run.
    + exact (proj1 (H4 eq_refl)).
Defined.

(** A token file and a literal token: the client carries the token of the
    file. *)
Lemma C9_witness_file_and_literal :
  (initClient trim_ascii demo_env availableCollectors
     (demo_ki [] [] token_path "literal_token")).1.2 =
  (Some ("https://127.0.0.1", "default", "abc_123"), None).
Proof.
  destruct (C9_token_file_overrides_literal trim_ascii demo_env
              availableCollectors (demo_ki [] [] token_path "literal_token")
              (initClient trim_ascii demo_env availableCollectors
                 (demo_ki [] [] token_path "literal_token")).1.1.1
              (initClient trim_ascii demo_env availableCollectors
                 (demo_ki [] [] token_path "literal_token")).1.1.2
              (initClient trim_ascii demo_env availableCollectors
                 (demo_ki [] [] token_path "literal_token")).1.2
              (initClient trim_ascii demo_env availableCollectors
                 (demo_ki [] [] token_path "literal_token")).2)
    as (H1 & _ & _).
  - discriminate.
  - run.
  - rewrite (H1 token_file_content) by run. run.
Defined.

(** Nodes and pods excluded, the server out of reach: the poll fails and
    keeps no handle, and the two names are gone from the registry. *)
Lemma C10_witness_server_down :
  let G := Gather trim_ascii demo_env_down availableCollectors
             (demo_ki [] ["nodes"; "pods"] "" "") in
  outcome G.2 = Return (Some "connection refused") ∧
  client G.1.2 = None ∧
  G.1.1 !! "nodes" = None ∧
  G.1.1 !! "pods" = None ∧
  G.1.1 !! "deployments" = Some collectDeployments.
Proof.
  cbv zeta.
  destruct (C10_deletions_outlive_failed_construction trim_ascii demo_env_down
              availableCollectors (demo_ki [] ["nodes"; "pods"] "" "")
              (delete_all ["nodes"; "pods"] availableCollectors)
              (demo_ki [] ["nodes"; "pods"] "" "") None "connection refused"
              [EvDelete "nodes"; EvDelete "pods";
               EvNewClient "https://127.0.0.1" "default" ""
                 (time_Second * 5) tt]
              (Gather trim_ascii demo_env_down availableCollectors
                 (demo_ki [] ["nodes"; "pods"] "" "")).1.1
              (Gather trim_ascii demo_env_down availableCollectors
                 (demo_ki [] ["nodes"; "pods"] "" "")).1.2
              (Gather trim_ascii demo_env_down availableCollectors
                 (demo_ki [] ["nodes"; "pods"] "" "")).2)
    as (H1 & H2 & _ & H4 & H5 & _).
  - exact demo_env_down_conventional.
  - reflexivity.
  - reflexivity.
  - run.
  - run.
  - split; [exact H1 |]. split; [exact H2 |].
    split; [apply H4; apply (bool_decide_unpack _); vm_compute; exact I |].
    split; [apply H4; apply (bool_decide_unpack _); vm_compute; exact I |].
    rewrite H5 by (apply (bool_decide_unpack _); vm_compute; exact I). run.
Defined.

(** * Further properties of the orchestrator *)

Section kube_state_more.

Context {Client error tls_ClientConfig : Type}.
Variable TrimSpace : string → string.

Local Abbreviation KI := (@KubernetesInventory Client tls_ClientConfig).
Local Abbreviation ENV := (@Env Client error tls_ClientConfig).
Local Abbreviation initClient := (initClient TrimSpace).
Local Abbreviation Gather := (Gather TrimSpace).
Local Abbreviation polls := (polls TrimSpace).
Local Abbreviation client_ready := (client_ready TrimSpace).
Local Abbreviation RES := (@PollResult Client error tls_ClientConfig).

Implicit Types (env : ENV) (ki : KI) (reg : gmap string Collector) (r : RES).

(** *** More on the deleting loop *)

Lemma delete_all_subseteq (names : list string) reg :
  delete_all names reg ⊆ reg.
Proof.
  apply map_subseteq_spec. intros n f. rewrite lookup_delete_all.
  by case_decide.
Qed.

Lemma dom_delete_all (names : list string) reg :
  dom (delete_all names reg) = dom reg ∖ list_to_set names.
Proof.
  apply set_eq. intros n.
  rewrite elem_of_difference, !elem_of_dom, elem_of_list_to_set,
    lookup_delete_all.
  case_decide; split; try tauto.
  - by intros [? ?].
Qed.

Lemma delete_all_idemp (names : list string) reg :
  delete_all names (delete_all names reg) = delete_all names reg.
Proof.
  apply map_eq. intros n. rewrite !lookup_delete_all. by case_decide.
Qed.

Lemma delete_all_comm (l1 l2 : list string) reg :
  delete_all l1 (delete_all l2 reg) = delete_all l2 (delete_all l1 reg).
Proof.
  apply map_eq. intros n. rewrite !lookup_delete_all. by repeat case_decide.
Qed.

Lemma Gather_eta env reg ki :
  Gather env reg ki =
    ((Gather env reg ki).1.1, (Gather env reg ki).1.2, (Gather env reg ki).2).
Proof. by destruct (Gather env reg ki) as [[? ?] ?]. Qed.

(** What [Gather] leaves of the receiver. *)
Lemma Gather_receiver_fields env reg ki :
  let ki' := (Gather env reg ki).1.2 in
  URL ki' = URL ki ∧ BearerToken ki' = BearerToken ki ∧
  Namespace ki' = Namespace ki ∧ ResponseTimeout ki' = ResponseTimeout ki ∧
  ResourceExclude ki' = ResourceExclude ki ∧
  ResourceInclude ki' = ResourceInclude ki ∧
  MaxConfigMapAge ki' = MaxConfigMapAge ki ∧
  ClientConfig ki' = ClientConfig ki.
Proof.
  unfold Gather, initClient.
  destruct (client ki); [done |].
  destruct (bool_decide _); [destruct (ReadFile _ _) |]; simpl;
    try done;
    match goal with
    | |- context [newClient ?e ?a ?b ?c ?d ?f] =>
        destruct (newClient e a b c d f) as [c0 [e0|]]
    end; done.
Qed.

Lemma Gather_excluded_by env reg ki :
  excluded_by (Gather env reg ki).1.2 = excluded_by ki.
Proof.
  destruct (Gather_receiver_fields env reg ki)
    as (_ & _ & _ & _ & Hex & Hinc & _).
  unfold excluded_by. by rewrite Hex, Hinc.
Qed.

(** *** The registry across polls *)

(** X1: a poll never adds to the registry, and the routines it runs were
    all registered before it. *)
Theorem Gather_never_adds_to_registry env reg ki :
  (Gather env reg ki).1.1 ⊆ reg ∧
  ∀ n, n ∈ collectors_run (Gather env reg ki).2 → is_Some (reg !! n).
Proof.
  assert ((Gather env reg ki).1.1 ⊆ reg) as Hsub.
  { rewrite Gather_registry. destruct (client ki); [done |].
    apply delete_all_subseteq. }
  split; [done |]. intros n Hn.
  destruct (collectors_run_registered TrimSpace env reg ki _ _ _ n
              (Gather_eta env reg ki) Hn) as [f Hf].
  exists f. by apply (lookup_weaken _ _ _ _ Hf).
Qed.

(** The registry holds nothing more for this receiver to delete. *)
Lemma settled_after_Gather env reg ki :
  is_Some (client (Gather env reg ki).1.2) ∨
  delete_all (excluded_by (Gather env reg ki).1.2) (Gather env reg ki).1.1
  = (Gather env reg ki).1.1.
Proof.
  rewrite Gather_excluded_by, Gather_registry.
  destruct (client ki) as [c|] eqn:Hc.
  - left. pose proof (Gather_cached TrimSpace env reg ki c Hc) as HG.
    rewrite HG. simpl. by rewrite Hc.
  - right. apply delete_all_idemp.
Qed.

Lemma settled_Gather env reg ki :
  is_Some (client ki) ∨ delete_all (excluded_by ki) reg = reg →
  (Gather env reg ki).1.1 = reg.
Proof.
  intros H. rewrite Gather_registry.
  destruct (client ki); [done |]. by destruct H as [[? ?]|H].
Qed.

Lemma settled_polls (envs : list ENV) : ∀ reg ki,
  is_Some (client ki) ∨ delete_all (excluded_by ki) reg = reg →
  (polls envs reg ki).1.1 = reg.
Proof.
  induction envs as [|env envs IH]; intros reg ki H; [done |].
  simpl. pose proof (settled_Gather env reg ki H) as Hreg.
  pose proof (settled_after_Gather env reg ki) as Hnext.
  destruct (Gather env reg ki) as [[reg1 ki1] r1]. simpl in *. subst reg1.
  destruct (outcome r1); [| done].
  specialize (IH reg ki1 Hnext).
  by destruct (polls envs reg ki1) as [[reg2 ki2] rs].
Qed.

(** X2: in a run of polls of one receiver only the first poll can change
    the registry: after any number of further polls, failed and retried
    constructions included, the registry is the one the first poll left. *)
Theorem first_poll_settles_registry env (envs : list ENV) reg ki :
  (polls (env :: envs) reg ki).1.1 = (Gather env reg ki).1.1.
Proof.
  simpl. pose proof (settled_after_Gather env reg ki) as Hnext.
  destruct (Gather env reg ki) as [[reg1 ki1] r1]. simpl in *.
  destruct (outcome r1); [| done].
  pose proof (settled_polls envs reg1 ki1 Hnext) as H.
  by destruct (polls envs reg1 ki1) as [[reg2 ki2] rs].
Qed.

(** X3: a receiver with an include list never changes the registry,
    whether its construction succeeds or fails, in one poll or in a
    run. *)
Theorem include_list_never_touches_registry env (envs : list ENV) reg ki :
  ResourceInclude ki ≠ [] →
  (Gather env reg ki).1.1 = reg ∧ (polls envs reg ki).1.1 = reg.
Proof.
  intros Hinc.
  assert (delete_all (excluded_by ki) reg = reg) as H
    by (by rewrite excluded_by_include).
  split; [apply settled_Gather | apply settled_polls]; by right.
Qed.

(** X4: the exclusions of two receivers that build their clients add up,
    in whichever order the two polls come. *)
Theorem exclusions_accumulate_in_any_order env1 env2 reg ki1 ki2 :
  client ki1 = None → client ki2 = None →
  (Gather env2 (Gather env1 reg ki1).1.1 ki2).1.1 =
    (Gather env1 (Gather env2 reg ki2).1.1 ki1).1.1 ∧
  dom (Gather env2 (Gather env1 reg ki1).1.1 ki2).1.1 =
    dom reg ∖ (list_to_set (excluded_by ki1) ∪ list_to_set (excluded_by ki2)).
Proof.
  intros Hc1 Hc2. rewrite !Gather_registry, Hc1, Hc2. split.
  - apply delete_all_comm.
  - rewrite !dom_delete_all. apply set_eq. intros n.
    rewrite !elem_of_difference, elem_of_union. tauto.
Qed.

Lemma list_to_set_keys reg :
  (list_to_set (map_to_list reg).*1 : gset string) = dom reg.
Proof.
  apply set_eq. intros n.
  rewrite elem_of_list_to_set, list_elem_of_fmap, elem_of_dom. split.
  - intros ([n' f] & -> & Hin). apply elem_of_map_to_list in Hin. eauto.
  - intros [f Hf]. exists (n, f). split; [done |].
    by apply elem_of_map_to_list.
Qed.

(** X5: a poll that builds its client with an empty include list runs
    the registered names that are not excluded, each once, leaves exactly
    those in the registry, and returns nil. *)
Theorem building_poll_runs_registry_minus_exclude env reg ki :
  ResourceInclude ki = [] → client ki = None →
  (initClient env reg ki).1.2.2 = None →
  (list_to_set (collectors_run (Gather env reg ki).2) : gset string) =
    dom reg ∖ list_to_set (ResourceExclude ki) ∧
  NoDup (collectors_run (Gather env reg ki).2) ∧
  dom (Gather env reg ki).1.1 = dom reg ∖ list_to_set (ResourceExclude ki) ∧
  outcome (Gather env reg ki).2 = Return None.
Proof.
  intros Hinc Hc Herr.
  assert (client_ready env reg ki) as Hready by (by right).
  destruct (Gather_ready TrimSpace env reg ki _ _ _ Hready
              (Gather_eta env reg ki)) as (Hreg & Hu & Ho).
  rewrite Hc, excluded_by_no_include in Hreg by done.
  pose proof (collectors_run_all env _ ki _ Hinc Hu) as Hrun.
  rewrite Hrun, Hreg, list_to_set_keys, dom_delete_all.
  split; [done |]. split; [apply NoDup_fst_map_to_list |]. split; [done |].
  rewrite Ho, Hu. apply join_launch_Return. rewrite Hinc. constructor.
Qed.

(** *** The include list *)

(** X6: with an include list, a poll that has or builds its client
    launches one unit per entry of the list, in the order of the list and
    with its repetitions, each unit carrying what the registry holds under
    its name. *)
Theorem include_entries_launched_as_listed env reg ki :
  ResourceInclude ki ≠ [] → client_ready env reg ki →
  unit_name <$> units (Gather env reg ki).2 = ResourceInclude ki ∧
  unit_f <$> units (Gather env reg ki).2 = (reg !!.) <$> ResourceInclude ki.
Proof.
  intros Hinc Hready.
  destruct (Gather_ready TrimSpace env reg ki _ _ _ Hready
              (Gather_eta env reg ki)) as (Hreg & Hu & _).
  rewrite excluded_by_include, delete_all_nil in Hreg by done.
  assert ((Gather env reg ki).1.1 = reg) as Hreg'
    by (by destruct (client ki)).
  rewrite Hu, Hreg', launch_include by done.
  rewrite <- !list_fmap_compose. split.
  - by rewrite <- (list_fmap_id (ResourceInclude ki)) at 2.
  - done.
Qed.

(** X7: in a poll that has or builds its client, a nil call kills the
    process exactly when the include list holds a name the registry
    lacks; so it never does without an include list, nor when every
    included name is registered. *)
Theorem poll_panics_iff_unknown_include env reg ki :
  client_ready env reg ki →
  (outcome (Gather env reg ki).2 = Panic ↔
   ∃ n, n ∈ ResourceInclude ki ∧ reg !! n = None).
Proof.
  intros Hready.
  destruct (Gather_ready TrimSpace env reg ki _ _ _ Hready
              (Gather_eta env reg ki)) as (Hreg & Hu & Ho).
  rewrite Ho, Hu. destruct (decide (ResourceInclude ki = [])) as [Hinc|Hinc].
  - rewrite join_launch_Return by (rewrite Hinc; constructor).
    rewrite Hinc. split; [done |]. intros (n & Hn & _).
    by apply elem_of_nil in Hn.
  - rewrite excluded_by_include, delete_all_nil in Hreg by done.
    assert ((Gather env reg ki).1.1 = reg) as ->
      by (by destruct (client ki)).
    split.
    + intros (u & Hin & Hnil)%join_Panic.
      apply launch_unit_include in Hin as (n & Hn & ->); [| done].
      apply is_nil_call_go in Hnil. eauto.
    + intros (n & Hn & Hmiss). by apply (join_launch_Panic env reg ki n).
Qed.

(** X8: a name excluded by one receiver's construction makes a later poll
    of a receiver that includes it panic. *)
Theorem excluded_name_panics_includer env1 env2 reg ki1 ki2 n :
  ResourceInclude ki1 = [] → client ki1 = None → n ∈ ResourceExclude ki1 →
  n ∈ ResourceInclude ki2 →
  client_ready env2 (Gather env1 reg ki1).1.1 ki2 →
  outcome (Gather env2 (Gather env1 reg ki1).1.1 ki2).2 = Panic.
Proof.
  intros Hinc1 Hc1 Hex Hin2 Hready.
  assert ((Gather env1 reg ki1).1.1 !! n = None) as Hmiss.
  { rewrite Gather_registry, Hc1, excluded_by_no_include, lookup_delete_all
      by done.
    by rewrite decide_True. }
  exact (Gather_unknown_include_panics TrimSpace env2 _ ki2 _ _ _ n Hready
           Hin2 Hmiss (Gather_eta env2 _ ki2)).
Qed.

(** *** The receiver *)

Lemma Gather_literal_kept env reg ki :
  BearerToken ki = "" →
  BearerTokenString (Gather env reg ki).1.2 = BearerTokenString ki.
Proof.
  intros Hpath. unfold Gather, initClient. destruct (client ki); [done |].
  rewrite Hpath. simpl.
  match goal with
  | |- context [newClient ?e ?a ?b ?c ?d ?f] =>
      destruct (newClient e a b c d f) as [c0 [e0|]]
  end; done.
Qed.

(** X9: a poll changes nothing of the configuration it was given: URL,
    token path, namespace, timeouts, both lists and the TLS options stay,
    and so does the literal token when no token path is set. *)
Theorem Gather_keeps_configuration env reg ki :
  let ki' := (Gather env reg ki).1.2 in
  URL ki' = URL ki ∧ BearerToken ki' = BearerToken ki ∧
  Namespace ki' = Namespace ki ∧ ResponseTimeout ki' = ResponseTimeout ki ∧
  ResourceExclude ki' = ResourceExclude ki ∧
  ResourceInclude ki' = ResourceInclude ki ∧
  MaxConfigMapAge ki' = MaxConfigMapAge ki ∧
  ClientConfig ki' = ClientConfig ki ∧
  (BearerToken ki = "" → BearerTokenString ki' = BearerTokenString ki).
Proof.
  pose proof (Gather_receiver_fields env reg ki) as H. simpl in *.
  destruct H as (H1 & H2 & H3 & H4 & H5 & H6 & H7 & H8).
  repeat (split; [done |]). apply Gather_literal_kept.
Qed.

(** Without a token path, the set-up steps of one poll. *)
Lemma Gather_setup_without_path env reg ki :
  BearerToken ki = "" →
  ∀ ev, ev ∈ setup (Gather env reg ki).2 →
    match ev with
    | EvReadFile _ => False
    | EvNewClient url ns tok d tls =>
        url = URL ki ∧ ns = Namespace ki ∧ tok = BearerTokenString ki
    | EvDelete _ => True
    end.
Proof.
  intros Hpath ev. unfold Gather, initClient.
  destruct (client ki); [by intros ?%elem_of_nil |].
  rewrite Hpath. simpl.
  match goal with
  | |- context [newClient ?e ?a ?b ?c ?d ?f] =>
      destruct (newClient e a b c d f) as [c0 [e0|]]
  end; simpl; intros Hin;
    (apply elem_of_app in Hin as [Hin|Hin];
     [apply list_elem_of_fmap in Hin as (? & -> & _); done |
      apply elem_of_cons in Hin as [->|Hin];
      [done | by apply elem_of_nil in Hin]]).
Qed.

(** X10: without a token path no poll of a run ever reads a file, and
    every call of [newClient] in the run, retries after failures
    included, carries the URL, the namespace and the literal token of the
    configuration. *)
Theorem no_token_path_never_reads_file (envs : list ENV) reg ki :
  BearerToken ki = "" →
  Forall (λ r, ∀ ev, ev ∈ setup r →
            match ev with
            | EvReadFile _ => False
            | EvNewClient url ns tok d tls =>
                url = URL ki ∧ ns = Namespace ki ∧ tok = BearerTokenString ki
            | EvDelete _ => True
            end)
    (polls envs reg ki).2.
Proof.
  intros Hpath.
  assert (∀ reg0 ki0,
            URL ki0 = URL ki → Namespace ki0 = Namespace ki →
            BearerToken ki0 = "" →
            BearerTokenString ki0 = BearerTokenString ki →
            Forall (λ r, ∀ ev, ev ∈ setup r →
                      match ev with
                      | EvReadFile _ => False
                      | EvNewClient url ns tok d tls =>
                          url = URL ki ∧ ns = Namespace ki ∧
                          tok = BearerTokenString ki
                      | EvDelete _ => True
                      end)
              (polls envs reg0 ki0).2) as Hgen; [| by apply Hgen].
  induction envs as [|env envs IH]; intros reg0 ki0 Hu Hn Hp Hl;
    [constructor |].
  simpl.
  pose proof (Gather_setup_without_path env reg0 ki0 Hp) as Hstep.
  pose proof (Gather_literal_kept env reg0 ki0 Hp) as Hl'.
  destruct (Gather_receiver_fields env reg0 ki0) as (Hu' & Hp' & Hn' & _).
  simpl in Hu', Hp', Hn'.
  destruct (Gather env reg0 ki0) as [[reg1 ki1] r1]. simpl in *.
  rewrite Hu, Hn, Hl in Hstep.
  destruct (outcome r1).
  - specialize (IH reg1 ki1 ltac:(congruence) ltac:(congruence)
                  ltac:(congruence) ltac:(congruence)).
    destruct (polls envs reg1 ki1) as [[reg2 ki2] rs]. simpl in *.
    by constructor.
  - simpl. by repeat constructor.
Qed.

(** X11: a poll that builds its client from a token file stores the
    trimmed content in the receiver whatever [newClient] then returns,
    and the stored token is no fallback: while the handle is nil, a later
    poll that cannot read the file returns the error of that read. *)
Theorem token_file_overwrites_literal_for_good env reg ki content :
  client ki = None → BearerToken ki ≠ "" →
  ReadFile env (BearerToken ki) = inl content →
  BearerTokenString (Gather env reg ki).1.2 = TrimSpace content ∧
  ∀ env2 reg2 e2,
    client (Gather env reg ki).1.2 = None →
    ReadFile env2 (BearerToken ki) = inr e2 →
    outcome (Gather env2 reg2 (Gather env reg ki).1.2).2 = Return (Some e2).
Proof.
  intros Hc Hpath Hread.
  assert (bool_decide (BearerToken ki ≠ "") = true) as Hb
    by (by apply bool_decide_eq_true).
  split.
  - unfold Gather, initClient. rewrite Hc, Hb, Hread. simpl.
    match goal with
    | |- context [newClient ?e ?a ?b ?c ?d ?f] =>
        destruct (newClient e a b c d f) as [c0 [e0|]]
    end; done.
  - intros env2 reg2 e2 Hc' Hread'.
    destruct (Gather_receiver_fields env reg ki) as (_ & Hbt & _).
    simpl in Hbt. set (ki' := (Gather env reg ki).1.2) in *.
    unfold Gather at 1. unfold initClient. rewrite Hc', Hbt, Hb, Hread'. done.
Qed.

(** X12: [Gather] stores what [initClient] returns before looking at the
    error: if [newClient] gives a client together with an error, the poll
    returns the error and launches nothing, but keeps the client, and the
    next poll does not build one: it launches its units with the kept
    handle. *)
Theorem client_returned_with_error_is_kept env reg ki c e :
  client ki = None →
  (initClient env reg ki).1.2 = (Some c, Some e) →
  outcome (Gather env reg ki).2 = Return (Some e) ∧
  units (Gather env reg ki).2 = [] ∧
  client (Gather env reg ki).1.2 = Some c ∧
  ∀ env2 reg2,
    constructed (Gather env2 reg2 (Gather env reg ki).1.2).2 = None ∧
    setup (Gather env2 reg2 (Gather env reg ki).1.2).2 = [] ∧
    units (Gather env2 reg2 (Gather env reg ki).1.2).2 = launch env2 reg2 ki.
Proof.
  intros Hc Hres.
  destruct (initClient env reg ki) as [[[reg1 ki1] res] ev] eqn:Hi.
  simpl in Hres. subst res.
  pose proof (initClient_receiver TrimSpace env reg ki) as (Hinc & _).
  rewrite Hi in Hinc. simpl in Hinc.
  rewrite (Gather_init_err TrimSpace env reg ki reg1 ki1 (Some c) e ev Hc Hi).
  simpl. split; [done |]. split; [done |]. split; [done |].
  intros env2 reg2. split; [done |]. split; [done |]. by apply launch_ext.
Qed.

(** X13: the receiver the registered factory makes has no handle, no
    lists and no token path: its first poll deletes nothing, reads no
    file, and calls [newClient] once with an empty URL and token, the
    namespace "default" and a timeout of five seconds. *)
Theorem factory_receiver_first_poll env reg (tls0 : tls_ClientConfig) :
  (Gather env reg (init tls0)).1.1 = reg ∧
  setup (Gather env reg (init tls0)).2 =
    [EvNewClient "" "default" "" 5000000000 tls0] ∧
  constructed (Gather env reg (init tls0)).2 =
    Some (newClient env "" "default" "" 5000000000 tls0) ∧
  client (Gather env reg (init tls0)).1.2 =
    (newClient env "" "default" "" 5000000000 tls0).1.
Proof.
  unfold Gather, initClient. simpl.
  change (time_Second * 5) with 5000000000.
  destruct (newClient env "" "default" "" 5000000000 tls0) as [c [e|]]; done.
Qed.

End kube_state_more.

(** * atoi *)

Local Open Scope Z_scope.

Lemma byte_of_range c : 0 ≤ byte_of c < 256.
Proof.
  unfold byte_of. pose proof (Ascii.nat_ascii_bounded c). lia.
Qed.

Lemma is_digit_value c :
  is_digit c = true →
  digit_value (byte_of c) = Some (byte_of c - 48) ∧ 0 ≤ byte_of c - 48 < 10.
Proof.
  unfold is_digit, digit_value. intros H. rewrite H.
  apply andb_true_iff in H as [H1 H2]. split; [done |]. lia.
Qed.

Lemma not_digit_value c :
  is_digit c = false →
  match digit_value (byte_of c) with
  | None => True
  | Some d => 10 ≤ d
  end.
Proof.
  unfold is_digit, digit_value. intros H. rewrite H.
  destruct ((97 <=? byte_of c) && (byte_of c <=? 122)) eqn:E1.
  - apply andb_true_iff in E1 as [? ?]. lia.
  - destruct ((65 <=? byte_of c) && (byte_of c <=? 90)) eqn:E2; [| done].
    apply andb_true_iff in E2 as [? ?]. lia.
Qed.

Lemma decimal_from_ge s : ∀ n, all_digits s = true → 0 ≤ n → n ≤ decimal_from s n.
Proof.
  induction s as [|c s IH]; intros n Hd Hn; simpl; [lia |].
  simpl in Hd. apply andb_true_iff in Hd as [Hc Hs].
  destruct (is_digit_value c Hc) as [_ Hr].
  specialize (IH (n * 10 + (byte_of c - 48)) Hs). lia.
Qed.

Lemma ParseUint_loop_shape base cutoff maxVal s : ∀ n,
  match ParseUint_loop base cutoff maxVal s n with
  | (_, None) => True
  | (v, Some ErrSyntax) => v = 0
  | (v, Some ErrRange) => v = maxVal
  end.
Proof.
  induction s as [|c s IH]; intros n; simpl; [done |].
  destruct (digit_value (byte_of c)) as [d|]; [| done].
  destruct (d >=? base); [done |].
  destruct (n >=? cutoff); [done |].
  destruct (_ || _); [done |]. apply IH.
Qed.

Lemma ParseUint_loop_digits s : ∀ n,
  all_digits s = true → 0 ≤ n ≤ 18446744073709551615 →
  ParseUint_loop 10 1844674407370955162 18446744073709551615 s n =
    if decimal_from s n <=? 18446744073709551615
    then (decimal_from s n, None)
    else (18446744073709551615, Some ErrRange).
Proof.
  induction s as [|c s IH]; intros n Hd Hn; simpl.
  - destruct (Z.leb_spec n 18446744073709551615); [done | lia].
  - simpl in Hd. apply andb_true_iff in Hd as [Hc Hs].
    destruct (is_digit_value c Hc) as [-> Hr].
    pose proof (decimal_from_ge s (n * 10 + (byte_of c - 48)) Hs) as Hge.
    rewrite Z.geb_leb. destruct (Z.leb_spec 10 (byte_of c - 48)); [lia |].
    rewrite Z.geb_leb. destruct (Z.leb_spec 1844674407370955162 n).
    + destruct (Z.leb_spec (decimal_from s (n * 10 + (byte_of c - 48)))
                  18446744073709551615); [lia | done].
    + change (2 ^ 64) with 18446744073709551616.
      rewrite (Z.mod_small (n * 10)) by lia.
      destruct (Z_lt_ge_dec (n * 10 + (byte_of c - 48)) 18446744073709551616)
        as [Hlt|Hge'].
      * rewrite (Z.mod_small (n * 10 + _)) by lia.
        rewrite Z.gtb_ltb.
        destruct (Z.ltb_spec (n * 10 + (byte_of c - 48)) (n * 10)); [lia |].
        destruct (Z.ltb_spec 18446744073709551615 (n * 10 + (byte_of c - 48)));
          [lia |].
        simpl. apply IH; [done | lia].
      * assert ((n * 10 + (byte_of c - 48)) mod 18446744073709551616
                = n * 10 + (byte_of c - 48) - 18446744073709551616) as ->.
        { symmetry. apply (Z.mod_unique _ _ 1); lia. }
        destruct (Z.ltb_spec (n * 10 + (byte_of c - 48) - 18446744073709551616)
                    (n * 10)); [| lia].
        simpl.
        destruct (Z.leb_spec (decimal_from s (n * 10 + (byte_of c - 48)))
                    18446744073709551615); [lia | done].
Qed.

Lemma ParseUint_loop_nondigit s : ∀ n,
  all_digits s = false →
  (ParseUint_loop 10 1844674407370955162 18446744073709551615 s n).2 ≠ None.
Proof.
  induction s as [|c s IH]; intros n Hd; simpl; [done |].
  simpl in Hd. destruct (is_digit c) eqn:Hc.
  - destruct (is_digit_value c Hc) as [-> Hr]. simpl in Hd.
    repeat case_match; try done. by apply IH.
  - pose proof (not_digit_value c Hc) as Hv.
    destruct (digit_value (byte_of c)) as [d|]; [| done].
    rewrite Z.geb_leb. destruct (Z.leb_spec 10 d); [done | lia].
Qed.

Lemma ParseUint_10_64 s :
  s ≠ "" →
  ParseUint s 10 64 =
    ParseUint_loop 10 1844674407370955162 18446744073709551615 s 0.
Proof. destruct s; [done |]. reflexivity. Qed.

Lemma ParseInt_10_64 s :
  s ≠ "" →
  ParseInt s 10 64 =
    let '(un, err) := ParseUint (unsigned_part s) 10 64 in
    match err with
    | Some ErrSyntax => (0, err)
    | _ =>
        if negb (is_negative s) && (un >=? 9223372036854775808)
        then (9223372036854775807, Some ErrRange)
        else if is_negative s && (un >? 9223372036854775808)
        then (-9223372036854775808, Some ErrRange)
        else (if is_negative s then to_int64 (- to_int64 un)
              else to_int64 un, None)
    end.
Proof. destruct s; [done |]. reflexivity. Qed.

Lemma to_int64_small z :
  -9223372036854775808 ≤ z < 9223372036854775808 → to_int64 z = z.
Proof.
  intros H. unfold to_int64.
  change (2 ^ 63) with 9223372036854775808.
  change (2 ^ 64) with 18446744073709551616.
  rewrite Z.mod_small by lia. lia.
Qed.

Lemma occurs_not_all_digits c s :
  occurs c s → is_digit c = false → all_digits s = false.
Proof.
  induction s as [|c' s IH]; simpl; [done |].
  intros [->|Hin] Hc.
  - by rewrite Hc.
  - rewrite (IH Hin Hc). apply andb_false_r.
Qed.

(** What [ParseInt] gives in base 10 on 64 bits: without an error the
    number read, and an error exactly on the strings that read as 0 for
    want of a numeral in range. *)
Lemma ParseInt_decimal s :
  match ParseInt s 10 64 with
  | (i, None) => i = read_decimal s
  | (_, Some _) => read_decimal s = 0
  end.
Proof.
  destruct (decide (s = "")) as [->|Hs]; [reflexivity |].
  unfold read_decimal. rewrite (ParseInt_10_64 s Hs).
  change (2 ^ 63) with 9223372036854775808.
  generalize (is_negative s). generalize (unsigned_part s). clear s Hs.
  intros b neg.
  destruct (decide (b = "")) as [->|Hb]; [by destruct neg |].
  rewrite (bool_decide_eq_false_2 _ Hb). simpl negb. rewrite andb_true_l.
  rewrite (ParseUint_10_64 b Hb).
  destruct (all_digits b) eqn:Hd.
  - rewrite (ParseUint_loop_digits b 0 Hd) by lia.
    fold (decimal_value b).
    pose proof (decimal_from_ge b 0 Hd ltac:(lia)) as Hv.
    fold (decimal_value b) in Hv. set (v := decimal_value b) in *.
    rewrite andb_true_l.
    destruct (Z.leb_spec v 18446744073709551615) as [Hle|Hgt].
    + rewrite Z.geb_leb, Z.gtb_ltb. destruct neg; simpl.
      * destruct (Z.ltb_spec 9223372036854775808 v);
          destruct (Z.leb_spec v 9223372036854775808); try lia; try done.
        destruct (decide (v = 9223372036854775808)) as [->|Hne];
          [reflexivity |].
        rewrite (to_int64_small v) by lia. apply to_int64_small. lia.
      * destruct (Z.leb_spec 9223372036854775808 v);
          destruct (Z.ltb_spec v 9223372036854775808); try lia; try done.
        apply to_int64_small. lia.
    + destruct neg; simpl.
      * destruct (Z.leb_spec v 9223372036854775808); [lia | done].
      * destruct (Z.ltb_spec v 9223372036854775808); [lia | done].
  - pose proof (ParseUint_loop_nondigit b 0 Hd) as Herr.
    pose proof (ParseUint_loop_shape 10 1844674407370955162
                  18446744073709551615 b 0) as Hshape.
    destruct (ParseUint_loop _ _ _ b 0) as [un [[]|]]; simpl in *;
      [done | | done].
    subst un. by destruct neg.
Qed.

(** X14: [atoi] reads an optional sign followed by one or more decimal
    digits that denote an int64 as that number, and everything else (the
    empty string, a lone sign, any other byte, a number out of range) as
    0. *)
Theorem atoi_reads_decimal s : atoi s = read_decimal s.
Proof.
  unfold atoi. pose proof (ParseInt_decimal s) as H.
  destruct (ParseInt s 10 64) as [i [e|]]; congruence.
Qed.

(** X15: whatever the string, [atoi] gives an int64. *)
Theorem atoi_in_int64 s :
  -9223372036854775808 ≤ atoi s ≤ 9223372036854775807.
Proof.
  assert (atoi s = read_decimal s) as ->.
  { unfold atoi. pose proof (ParseInt_decimal s) as H.
    destruct (ParseInt s 10 64) as [i [e|]]; congruence. }
  unfold read_decimal.
  change (2 ^ 63) with 9223372036854775808.
  destruct (negb _ && all_digits (unsigned_part s)) eqn:E; simpl; [| lia].
  apply andb_true_iff in E as [_ Hd].
  pose proof (decimal_from_ge (unsigned_part s) 0 Hd ltac:(lia)) as Hv.
  fold (decimal_value (unsigned_part s)) in Hv.
  destruct (is_negative s).
  - destruct (Z.leb_spec (decimal_value (unsigned_part s))
                9223372036854775808); lia.
  - destruct (Z.ltb_spec (decimal_value (unsigned_part s))
                9223372036854775808); lia.
Qed.

(** X16: [atoi] does no trimming and knows no other notation: a string
    with any byte that is not a decimal digit after its optional sign (a
    blank, a line end, a point, an exponent, a second sign) reads as 0. *)
Theorem atoi_rejects_other_bytes s c :
  occurs c (unsigned_part s) → is_digit c = false → atoi s = 0.
Proof.
  intros Hin Hc. unfold atoi. pose proof (ParseInt_decimal s) as H.
  assert (read_decimal s = 0) as H0.
  { unfold read_decimal.
    by rewrite (occurs_not_all_digits c _ Hin Hc), andb_false_r. }
  destruct (ParseInt s 10 64) as [i [e|]]; congruence.
Qed.

Lemma digits_have_no_sign s :
  all_digits s = true → unsigned_part s = s ∧ is_negative s = false.
Proof.
  destruct s as [|c s]; [done |]. simpl. intros [Hc _]%andb_true_iff.
  unfold is_digit in Hc. apply andb_true_iff in Hc as [H1 H2].
  destruct (Z.eqb_spec (byte_of c) 43); [lia |].
  destruct (Z.eqb_spec (byte_of c) 45); [lia | done].
Qed.

(** X17: [atoi] does not saturate: for a string of digits that denotes a
    number beyond the int64 range [ParseInt] reports a range error with
    the largest int64, and [atoi] drops both and gives 0. *)
Theorem atoi_out_of_range_is_zero s :
  s ≠ "" → all_digits s = true → 9223372036854775808 ≤ decimal_value s →
  ParseInt s 10 64 = (9223372036854775807, Some ErrRange) ∧ atoi s = 0.
Proof.
  intros Hs Hd Hv.
  assert (ParseInt s 10 64 = (9223372036854775807, Some ErrRange)) as HP.
  { rewrite (ParseInt_10_64 s Hs).
    destruct (digits_have_no_sign s Hd) as [-> ->].
    rewrite (ParseUint_10_64 s Hs), (ParseUint_loop_digits s 0 Hd) by lia.
    fold (decimal_value s).
    destruct (Z.leb_spec (decimal_value s) 18446744073709551615).
    - simpl. rewrite Z.geb_leb.
      destruct (Z.leb_spec 9223372036854775808 (decimal_value s)); [done | lia].
    - done. }
  split; [done |]. unfold atoi. by rewrite HP.
Qed.

(** * The further properties at concrete inputs *)

(** pods included, nodes excluded, the token file missing: the failed
    poll and a run of two polls leave the seven entries. *)
Lemma include_list_never_touches_registry_witness :
  (demo_poll availableCollectors
     (demo_ki ["pods"] ["nodes"] "/missing" "")).1.1 = availableCollectors ∧
  (polls trim_ascii [demo_env; demo_env_down] availableCollectors
     (demo_ki ["pods"] ["nodes"] "/missing" "")).1.1 = availableCollectors.
Proof.
  apply (include_list_never_touches_registry trim_ascii demo_env
           [demo_env; demo_env_down] availableCollectors
           (demo_ki ["pods"] ["nodes"] "/missing" "")).
  discriminate.
Defined.

(** One receiver excludes nodes, another pods and nodes. *)
Lemma exclusions_accumulate_in_any_order_witness :
  (Gather trim_ascii demo_env_down
     (demo_poll availableCollectors (demo_ki [] ["nodes"] "" "")).1.1
     (demo_ki [] ["pods"; "nodes"] "" "")).1.1 =
  (demo_poll
     (Gather trim_ascii demo_env_down availableCollectors
        (demo_ki [] ["pods"; "nodes"] "" "")).1.1
     (demo_ki [] ["nodes"] "" "")).1.1.
Proof.
  exact (proj1 (exclusions_accumulate_in_any_order trim_ascii demo_env
                  demo_env_down availableCollectors
                  (demo_ki [] ["nodes"] "" "")
                  (demo_ki [] ["pods"; "nodes"] "" "") eq_refl eq_refl)).
Defined.

(** nodes, pods and an unregistered name excluded: the five other names
    run, each once. *)
Lemma building_poll_runs_registry_minus_exclude_witness :
  NoDup (collectors_run
           (demo_poll availableCollectors
              (demo_ki [] ["nodes"; "configmaps"; "pods"] "" "")).2) ∧
  length (collectors_run
            (demo_poll availableCollectors
               (demo_ki [] ["nodes"; "configmaps"; "pods"] "" "")).2)
  = 5%nat ∧
  outcome (demo_poll availableCollectors
             (demo_ki [] ["nodes"; "configmaps"; "pods"] "" "")).2
  = Return None.
Proof.
  destruct (building_poll_runs_registry_minus_exclude trim_ascii demo_env
              availableCollectors
              (demo_ki [] ["nodes"; "configmaps"; "pods"] "" ""))
    as (_ & H2 & _ & H4).
  - reflexivity.
  - reflexivity.
  - run.
  - split; [exact H2 |]. split; [run | exact H4].
Defined.

(** pods listed twice and an unregistered name: three units, in that
    order. *)
Lemma include_entries_launched_as_listed_witness :
  unit_name <$>
    units (demo_poll availableCollectors
             (demo_ki ["pods"; "configmaps"; "pods"] [] "" "")).2 =
  ["pods"; "configmaps"; "pods"].
Proof.
  refine (proj1 (include_entries_launched_as_listed trim_ascii demo_env
                   availableCollectors
                   (demo_ki ["pods"; "configmaps"; "pods"] [] "" "") _ _)).
  - discriminate.
  - right. run.
Defined.

(** An unregistered name next to a registered one: the poll panics. *)
Lemma poll_panics_iff_unknown_include_witness :
  outcome (demo_poll availableCollectors
             (demo_ki ["pods"; "configmaps"] [] "" "")).2 = Panic.
Proof.
  refine (proj2 (poll_panics_iff_unknown_include trim_ascii demo_env
                   availableCollectors
                   (demo_ki ["pods"; "configmaps"] [] "" "") _) _).
  - right. run.
  - exists "configmaps". split; [| run].
    apply (bool_decide_unpack _). vm_compute. exact I.
Defined.

(** One receiver excludes nodes, the next includes nodes and pods. *)
Lemma excluded_name_panics_includer_witness :
  outcome
    (demo_poll (demo_poll availableCollectors (demo_ki [] ["nodes"] "" "")).1.1
       (demo_ki ["nodes"; "pods"] [] "" "")).2 = Panic.
Proof.
  apply (excluded_name_panics_includer trim_ascii demo_env demo_env
           availableCollectors (demo_ki [] ["nodes"] "" "")
           (demo_ki ["nodes"; "pods"] [] "" "") "nodes").
  - reflexivity.
  - reflexivity.
  - apply (bool_decide_unpack _). vm_compute. exact I.
  - apply (bool_decide_unpack _). vm_compute. exact I.
  - right. run.
Defined.

(** No token path, a literal token, the server out of reach at the
    first of two polls: both calls of [newClient] carry the literal. *)
Lemma no_token_path_never_reads_file_witness :
  Forall (λ r, ∀ ev, ev ∈ setup r →
            match ev with
            | EvReadFile _ => False
            | EvNewClient url ns tok d tls =>
                url = "https://127.0.0.1" ∧ ns = "default" ∧
                tok = "literal_token"
            | EvDelete _ => True
            end)
    (polls trim_ascii [demo_env_down; demo_env] availableCollectors
       (demo_ki [] [] "" "literal_token")).2.
Proof.
  apply (no_token_path_never_reads_file trim_ascii [demo_env_down; demo_env]
           availableCollectors (demo_ki [] [] "" "literal_token")).
  reflexivity.
Defined.

(** The token file is read, the server is out of reach: the poll fails,
    and the receiver now holds the token of the file, not the literal. *)
Lemma token_file_overwrites_literal_for_good_witness :
  outcome (Gather trim_ascii demo_env_down availableCollectors
             (demo_ki [] [] token_path "literal_token")).2 =
    Return (Some "connection refused") ∧
  BearerTokenString
    (Gather trim_ascii demo_env_down availableCollectors
       (demo_ki [] [] token_path "literal_token")).1.2 = "abc_123".
Proof.
  split; [run |].
  destruct (token_file_overwrites_literal_for_good trim_ascii demo_env_down
              availableCollectors (demo_ki [] [] token_path "literal_token")
              token_file_content)
    as (H1 & _).
  - reflexivity.
  - discriminate.
  - run.
  - rewrite H1. run.
Defined.

(** [newClient] gives a client and an error: the first poll fails, the
    second does not build a client and launches the seven units. *)
Lemma client_returned_with_error_is_kept_witness :
  outcome (Gather trim_ascii demo_env_both availableCollectors
             (demo_ki [] [] "" "")).2 = Return (Some "partial set-up") ∧
  constructed
    (demo_poll availableCollectors
       (Gather trim_ascii demo_env_both availableCollectors
          (demo_ki [] [] "" "")).1.2).2 = None ∧
  length
    (units
       (demo_poll availableCollectors
          (Gather trim_ascii demo_env_both availableCollectors
             (demo_ki [] [] "" "")).1.2).2) = 7%nat.
Proof.
  destruct (client_returned_with_error_is_kept trim_ascii demo_env_both
              availableCollectors (demo_ki [] [] "" "")
              ("https://127.0.0.1", "default", "") "partial set-up")
    as (H1 & _ & _ & H4).
  - reflexivity.
  - run.
  - split; [exact H1 |].
    destruct (H4 demo_env availableCollectors) as (H5 & _ & H6).
    split; [exact H5 |]. unfold demo_poll. rewrite H6. run.
Defined.

(** A blank before the digits. *)
Lemma atoi_rejects_other_bytes_witness : atoi " 42" = 0.
Proof.
  apply (atoi_rejects_other_bytes " 42" (Ascii.ascii_of_nat 32)).
  - left. reflexivity.
  - reflexivity.
Defined.

(** One more than the largest int64. *)
Lemma atoi_out_of_range_is_zero_witness :
  ParseInt "9223372036854775808" 10 64 =
    (9223372036854775807, Some ErrRange) ∧
  atoi "9223372036854775808" = 0.
Proof.
  apply (atoi_out_of_range_is_zero "9223372036854775808").
  - discriminate.
  - reflexivity.
  - vm_compute. discriminate.
Defined.
